(** * Store-locator backend (main.go): the /api/search pipeline and start-up

    A shallow embedding of [main], [initDB], [apiSearchHandler] and
    [getGeoJSONFromDatabase], of the Go library calls they make, and of the
    SQL text they send, followed by the properties of the specification.

    Go strings are byte sequences: they are [string]s here, one [ascii] per
    byte.  Go's [int] is 64 bits wide (the image is built for a 64-bit
    target); integers are [Z] with the wrap-around written out. *)

From Stdlib Require Import ZArith Ascii SpecFloat Lia.
From stdpp Require Import gmap strings list sorting.

Open Scope Z_scope.

(** ** Bytes and literals *)

Definition byteZ (c : ascii) : Z := Z.of_N (N_of_ascii c).

Definition byte_of (z : Z) : ascii := ascii_of_N (Z.to_N z).

Definition dquote : ascii := byte_of 34.

(** Go literals that hold double quotes are written with an apostrophe in
    the place of each double quote; [raw] puts the double quotes back.  None
    of the literals of main.go written this way holds an apostrophe. *)
Fixpoint raw (s : string) : string :=
  match s with
  | EmptyString => EmptyString
  | String c s' => String (if byteZ c =? 39 then dquote else c) (raw s')
  end.

Definition is_digit (c : ascii) : bool := (48 <=? byteZ c) && (byteZ c <=? 57).

Fixpoint has_byte (b : Z) (s : string) : bool :=
  match s with
  | EmptyString => false
  | String c s' => (byteZ c =? b) || has_byte b s'
  end.

(** [strings.Contains] *)
Fixpoint Contains (s substr : string) : bool :=
  String.prefix substr s ||
  match s with
  | EmptyString => false
  | String _ s' => Contains s' substr
  end.

(** ** Errors

    The [error] values this program can meet.  [wrapError] is what
    [fmt.Errorf] builds for a format with one [%w]: the message is fixed when
    the error is made. *)
Inductive error : Type :=
  | ErrSyntax                                  (* strconv.ErrSyntax *)
  | ErrRange                                   (* strconv.ErrRange *)
  | ErrNoRows                                  (* sql.ErrNoRows *)
  | NumError (Func Num : string) (Err : error) (* *strconv.NumError *)
  | wrapError (msg : string) (err : error)     (* *fmt.wrapError *)
  | errorString (msg : string).                (* any other error value *)

(** [err == sql.ErrNoRows]: identity with the sentinel, not [errors.Is]. *)
Definition is_ErrNoRows (e : error) : bool :=
  match e with ErrNoRows => true | _ => false end.

(** ** strconv *)
Module strconv.

Definition intSize : Z := 64.
Definition maxUint64 : Z := 2 ^ 64 - 1.

Definition syntaxError (fn str : string) : error := NumError fn str ErrSyntax.
Definition rangeError (fn str : string) : error := NumError fn str ErrRange.

(** The loop of [ParseUint(s, 10, 0)]: base 10, so [base0] is false and a
    byte that is not a decimal digit ends in [syntaxError] (a letter gives
    [d >= base], an underscore falls to [default]).  [n] is a uint64. *)
Fixpoint ParseUint_loop (s0 s : string) (n : Z) : Z * option error :=
  let cutoff := maxUint64 / 10 + 1 in
  let maxVal := 2 ^ intSize - 1 in
  match s with
  | EmptyString => (n, None)
  | String c s' =>
      if is_digit c then
        let d := byteZ c - 48 in
        if cutoff <=? n then (maxVal, Some (rangeError "ParseUint" s0))
        else
          let n := (n * 10) mod 2 ^ 64 in
          let n1 := (n + d) mod 2 ^ 64 in
          if (n1 <? n) || (maxVal <? n1)
          then (maxVal, Some (rangeError "ParseUint" s0))
          else ParseUint_loop s0 s' n1
      else (0, Some (syntaxError "ParseUint" s0))
  end.

Definition ParseUint (s : string) : Z * option error :=
  match s with
  | EmptyString => (0, Some (syntaxError "ParseUint" s))
  | _ => ParseUint_loop s s 0
  end.

(** uint64 to int64 *)
Definition int64 (z : Z) : Z := (z + 2 ^ 63) mod 2 ^ 64 - 2 ^ 63.

(** [ParseInt(s, 10, 0)] *)
Definition ParseInt (s : string) : Z * option error :=
  match s with
  | EmptyString => (0, Some (syntaxError "ParseInt" s))
  | String c rest =>
      let s0 := s in
      let neg := byteZ c =? 45 in
      let s := if (byteZ c =? 43) || neg then rest else s in
      let '(un, err) := ParseUint s in
      let cutoff := 2 ^ (intSize - 1) in
      match err with
      | Some (NumError _ _ ErrRange) | None =>
          if negb neg && (cutoff <=? un)
          then (int64 (cutoff - 1), Some (rangeError "ParseInt" s0))
          else if neg && (cutoff <? un)
          then (int64 (- int64 cutoff), Some (rangeError "ParseInt" s0))
          else
            let n := int64 un in
            (if neg then int64 (- n) else n, None)
      | Some (NumError _ _ Err) => (0, Some (NumError "ParseInt" s0 Err))
      | Some e => (0, Some e)
      end
  end.

(** The fast path of [Atoi]: digits only, no overflow possible below 19
    bytes.  [ch -= '0'] is byte arithmetic; [int] does not wrap here. *)
Fixpoint Atoi_loop (s0 s : string) (n : Z) : Z * option error :=
  match s with
  | EmptyString => (n, None)
  | String ch s' =>
      let ch := (byteZ ch - 48) mod 256 in
      if 9 <? ch then (0, Some (syntaxError "Atoi" s0))
      else Atoi_loop s0 s' (n * 10 + ch)
  end.

Definition Atoi (s : string) : Z * option error :=
  let sLen := Z.of_nat (String.length s) in
  if (0 <? sLen) && (sLen <? 19) then
    let s0 := s in
    match s with
    | EmptyString => (0, Some (syntaxError "Atoi" s0))
    | String c rest =>
        let signed := (byteZ c =? 45) || (byteZ c =? 43) in
        let s := if signed then rest else s in
        if signed && (Z.of_nat (String.length s) <? 1)
        then (0, Some (syntaxError "Atoi" s0))
        else
          match Atoi_loop s0 s 0 with
          | (n, None) => (if byteZ c =? 45 then - n else n, None)
          | r => r
          end
    end
  else
    match ParseInt s with
    | (i64, Some (NumError _ Num Err)) => (i64, Some (NumError "Atoi" Num Err))
    | r => r
    end.

End strconv.

(** ** unicode/utf8 *)
Module utf8.

Definition cont (c : ascii) : bool := (128 <=? byteZ c) && (byteZ c <=? 191).

(** The length and the window of the second byte for a leading byte, from
    the tables [first] and [acceptRanges]; [None] for a byte that cannot
    start a multi-byte sequence. *)
Definition first (s0 : Z) : option (nat * Z * Z) :=
  if (194 <=? s0) && (s0 <=? 223) then Some (2%nat, 128, 191)
  else if s0 =? 224 then Some (3%nat, 160, 191)
  else if (225 <=? s0) && (s0 <=? 236) then Some (3%nat, 128, 191)
  else if s0 =? 237 then Some (3%nat, 128, 159)
  else if (238 <=? s0) && (s0 <=? 239) then Some (3%nat, 128, 191)
  else if s0 =? 240 then Some (4%nat, 144, 191)
  else if (241 <=? s0) && (s0 <=? 243) then Some (4%nat, 128, 191)
  else if s0 =? 244 then Some (4%nat, 128, 143)
  else None.

(** U+FFFD as [AppendRune] writes it *)
Definition RuneError : string :=
  String (byte_of 239) (String (byte_of 191) (String (byte_of 189) EmptyString)).

(** [DecodeRuneInString] followed by [AppendRune] on a non-empty string:
    the bytes written for the first rune, and the rest of the string.  A
    well-formed sequence is written back as it is; anything else is one
    byte wide and is written as U+FFFD. *)
Definition recode (c : ascii) (s : string) : string * string :=
  let one := String c EmptyString in
  if byteZ c <? 128 then (one, s)
  else
    match first (byteZ c) with
    | None => (RuneError, s)
    | Some (sz, lo, hi) =>
        if (String.length s <? sz - 1)%nat then (RuneError, s)
        else
          match s with
          | String s1 t1 =>
              if (byteZ s1 <? lo) || (hi <? byteZ s1) then (RuneError, s)
              else if (sz <=? 2)%nat
              then (String c (String s1 EmptyString), t1)
              else
                match t1 with
                | String s2 t2 =>
                    if negb (cont s2) then (RuneError, s)
                    else if (sz <=? 3)%nat
                    then (String c (String s1 (String s2 EmptyString)), t2)
                    else
                      match t2 with
                      | String s3 t3 =>
                          if negb (cont s3) then (RuneError, s)
                          else (String c (String s1 (String s2 (String s3 EmptyString))), t3)
                      | EmptyString => (RuneError, s)
                      end
                | EmptyString => (RuneError, s)
                end
          | EmptyString => (RuneError, s)
          end
    end.

End utf8.

(** ** fmt

    Formats that are constants of main.go, with the operands they name, are
    resolved where they are used ([%s], [%v] and [%w] of a string or an error
    print the string or the error's message).  [apiSearchHandler] also hands
    a computed string to [Fprintf] as the format, with no operand: [doPrintf]
    below is the method [doPrintf] of [pp] for an empty operand list. *)
Module fmt.

Definition is_flag (c : ascii) : bool :=
  let b := byteZ c in
  (b =? 35) || (b =? 48) || (b =? 43) || (b =? 45) || (b =? 32).

Fixpoint skip_flags (s : string) : string :=
  match s with
  | String c s' => if is_flag c then skip_flags s' else s
  | EmptyString => s
  end.

Definition tooLarge (x : Z) : bool := (1000000 <? x) || (x <? -1000000).

(** [parsenum] on the slice [s]: the number, whether one was read, and
    what is left of the slice; [None] when the number grew too large and
    [parsenum] gave up with [newi = end]. *)
Fixpoint parsenum (s : string) (num : Z) (isnum : bool) : Z * bool * option string :=
  match s with
  | String c s' =>
      if is_digit c then
        if tooLarge num then (0, false, None)
        else parsenum s' (num * 10 + (byteZ c - 48)) true
      else (num, isnum, Some s)
  | EmptyString => (num, isnum, Some s)
  end.

(** Splits at the first byte [b]: the bytes before it and those after it. *)
Fixpoint cut (b : Z) (s : string) : option (string * string) :=
  match s with
  | EmptyString => None
  | String c s' =>
      if byteZ c =? b then Some (EmptyString, s')
      else match cut b s' with
           | Some (l, r) => Some (String c l, r)
           | None => None
           end
  end.

(** [parseArgNumber] on a format that starts with an opening bracket
    (given without it): the rest of the format behind the index, and [ok]. *)
Definition parseArgNumber (s : string) : string * bool :=
  if (String.length s <? 2)%nat then (s, false)
  else
    match cut 93 s with
    | Some (inner, rest) =>
        match parsenum inner 0 false with
        | (_, true, Some EmptyString) => (rest, true)
        | _ => (rest, false)
        end
    | None => (s, false)
    end.

(** [argNumber] with [numArgs = 0]: no index is in range, so a bracket
    always clears [goodArgNum].  Returns the rest of the format, [found]
    and the new [goodArgNum]. *)
Definition argNumber (s : string) (goodArgNum : bool) : string * bool * bool :=
  match s with
  | String c s' =>
      if byteZ c =? 91 then
        let '(rest, ok) := parseArgNumber s' in (rest, ok, false)
      else (s, false, goodArgNum)
  | EmptyString => (s, false, goodArgNum)
  end.

Definition percentSign : string := "%".
Definition badWidthString : string := "%!(BADWIDTH)".
Definition badPrecString : string := "%!(BADPREC)".
Definition noVerbString : string := "%!(NOVERB)".
Definition badIndexString : string := "(BADINDEX)".
Definition missingString : string := "(MISSING)".

(** One verb: the format behind a percent sign.  Returns what is written
    and the rest of the format ([None]: the format ran out, the loop ends). *)
Definition verb (s : string) : string * option string :=
  let s := skip_flags s in
  let '(s, afterIndex, good) := argNumber s true in
  (* width *)
  let '(out, s, afterIndex, good) :=
    match s with
    | String c s' =>
        if byteZ c =? 42 then (badWidthString, s', false, good)
        else
          match parsenum s 0 false with
          | (_, widPresent, Some s1) =>
              (EmptyString, s1, afterIndex, good && negb (afterIndex && widPresent))
          | (_, _, None) => (EmptyString, EmptyString, afterIndex, good)
          end
    | EmptyString => (EmptyString, s, afterIndex, good)
    end in
  (* precision: [i+1 < end && format[i] == '.'], a dot needs a byte behind
     it, else it is left to be the verb *)
  let '(out, s, afterIndex, good) :=
    match s with
    | String c s' =>
        if (byteZ c =? 46) && (0 <? String.length s')%nat then
          let good := good && negb afterIndex in
          let '(s1, afterIndex, good) := argNumber s' good in
          match s1 with
          | String c1 s2 =>
              if byteZ c1 =? 42
              then (out +:+ badPrecString, s2, false, good)
              else
                match parsenum s1 0 false with
                | (_, _, Some s3) => (out, s3, afterIndex, good)
                | (_, _, None) => (out, EmptyString, afterIndex, good)
                end
          | EmptyString => (out, s1, afterIndex, good)
          end
        else (out, s, afterIndex, good)
    | EmptyString => (out, s, afterIndex, good)
    end in
  let '(s, afterIndex, good) :=
    if afterIndex then (s, afterIndex, good) else argNumber s good in
  match s with
  | EmptyString => (out +:+ noVerbString, None)
  | String c s' =>
      let '(r, rest) := utf8.recode c s' in
      if byteZ c =? 37 then (out +:+ percentSign, Some rest)
      else if negb good then (out +:+ "%!" +:+ r +:+ badIndexString, Some rest)
      else (out +:+ "%!" +:+ r +:+ missingString, Some rest)
  end.

(** The format loop: text up to the next percent sign is copied, then one
    verb is processed.  Every round consumes at least the percent sign, so
    [S (length format)] rounds are enough. *)
Fixpoint doPrintf (fuel : nat) (format : string) : string :=
  match fuel with
  | O => EmptyString
  | S fuel =>
      match cut 37 format with
      | None => format
      | Some (text, s) =>
          match verb s with
          | (out, Some rest) => text +:+ out +:+ doPrintf fuel rest
          | (out, None) => text +:+ out
          end
      end
  end.

(** [Sprintf(format)] with no operand *)
Definition Sprintf0 (format : string) : string :=
  doPrintf (S (String.length format)) format.

End fmt.

(** ** net/textproto and net/http *)
Module textproto.

(** The bitmap of [validHeaderFieldByte]: digits, letters and
    ! # $ % & ' * + - . ^ _ ` | ~ *)
Definition validHeaderFieldByte (c : ascii) : bool :=
  let b := byteZ c in
  ((48 <=? b) && (b <=? 57)) || ((97 <=? b) && (b <=? 122)) ||
  ((65 <=? b) && (b <=? 90)) ||
  existsb (Z.eqb b) [33; 35; 36; 37; 38; 39; 42; 43; 45; 46; 94; 95; 96; 124; 126].

Fixpoint all_valid (s : string) : bool :=
  match s with
  | EmptyString => true
  | String c s' => validHeaderFieldByte c && all_valid s'
  end.

(** The second loop of [canonicalMIMEHeaderKey]: upper case for the first
    letter and after each dash, lower case elsewhere. *)
Fixpoint canonical (upper : bool) (s : string) : string :=
  match s with
  | EmptyString => EmptyString
  | String c s' =>
      let b := byteZ c in
      let c :=
        if upper && (97 <=? b) && (b <=? 122) then byte_of (b - 32)
        else if negb upper && (65 <=? b) && (b <=? 90) then byte_of (b + 32)
        else c in
      String c (canonical (byteZ c =? 45) s')
  end.

(** A key with a byte that is not valid in a header field is returned
    unchanged by both the quick check and [canonicalMIMEHeaderKey]. *)
Definition CanonicalMIMEHeaderKey (s : string) : string :=
  if all_valid s then canonical true s else s.

End textproto.

Module http.

Definition StatusOK : Z := 200.
Definition StatusBadRequest : Z := 400.
Definition StatusInternalServerError : Z := 500.

(** [http.Header] is a [map[string][]string]. *)
Abbreviation Header := (gmap string (list string)).

Definition Header_Set (h : Header) (key value : string) : Header :=
  <[textproto.CanonicalMIMEHeaderKey key := [value]]> h.

Definition Header_Del (h : Header) (key : string) : Header :=
  delete (textproto.CanonicalMIMEHeaderKey key) h.

Definition Header_Get (h : Header) (key : string) : string :=
  match h !! textproto.CanonicalMIMEHeaderKey key with
  | Some (v :: _) => v
  | _ => EmptyString
  end.

(** The response as the handler's [ResponseWriter] builds it: the header
    map the handler edits, and what has gone out: the status line with a
    snapshot of the header map, taken by the first [WriteHeader], and the
    body bytes.  [sentHeader] is the handler's part of the header only: what
    the server adds of its own when it sends the response (Date,
    Content-Length or Transfer-Encoding, a sniffed Content-Type when the map
    holds none) is not in it. *)
Record ResponseWriter : Type := mkResponse {
  header : Header;
  wroteHeader : bool;
  status : Z;
  sentHeader : Header;
  body : string
}.

Definition newResponse : ResponseWriter :=
  mkResponse ∅ false 0 ∅ EmptyString.

Definition WriteHeader (w : ResponseWriter) (code : Z) : ResponseWriter :=
  if wroteHeader w then w
  else mkResponse (header w) true code (header w) (body w).

(** [Write]: an implicit [WriteHeader(StatusOK)] first, when none was
    made. *)
Definition Write (w : ResponseWriter) (data : string) : ResponseWriter :=
  let w := if wroteHeader w then w else WriteHeader w StatusOK in
  mkResponse (header w) (wroteHeader w) (status w) (sentHeader w) (body w +:+ data).

Definition setHeader (w : ResponseWriter) (h : Header) : ResponseWriter :=
  mkResponse h (wroteHeader w) (status w) (sentHeader w) (body w).

Definition newline : string := String (byte_of 10) EmptyString.

(** [http.Error]: drops Content-Length, resets the content type to plain
    text, sets nosniff, writes the status line, then [Fprintln(w, error)]. *)
Definition Error (w : ResponseWriter) (error : string) (code : Z) : ResponseWriter :=
  let h := header w in
  let h := Header_Del h "Content-Length" in
  let h := Header_Set h "Content-Type" "text/plain; charset=utf-8" in
  let h := Header_Set h "X-Content-Type-Options" "nosniff" in
  let w := WriteHeader (setHeader w h) code in
  Write w (error +:+ newline).

(** [url.Values] is a [map[string][]string]; [Get] gives the first value
    of the key, or the empty string. *)
Abbreviation Values := (gmap string (list string)).

Definition Values_Get (v : Values) (key : string) : string :=
  match v !! key with
  | Some (x :: _) => x
  | _ => EmptyString
  end.

(** Of the request the handler reads [r.URL.Query()] only. *)
Record Request : Type := mkRequest { URL_Query : Values }.

End http.

(** ** External collaborators

    [strconv.ParseFloat(s, 64)] and [strconv.Quote] stay parameters: the
    properties below hold for whatever they compute.  A float64 is an IEEE
    binary64 datum. *)
Abbreviation float64 := spec_float.

Class Strconv : Type := {
  ParseFloat : string -> float64 * option error;
  Quote : string -> string
}.

(** A value handed to [database/sql] as a bind parameter. *)
Inductive driverValue : Type :=
  | Float64 (f : float64)
  | Int64 (n : Z).

(** One [db.QueryRow(query, args...)] *)
Definition Query : Type := string * list driverValue.

(** The database behind the pool [db]: [db.QueryRow(query, args...)]
    followed by [Scan] into one string gives the string or an error. *)
Class Database : Type := {
  QueryRowScan : string -> list driverValue -> string + error
}.

Section Server.

Context `{!Strconv} `{!Database}.

(** The method [Error()] of an [error] *)
Fixpoint Error (e : error) : string :=
  match e with
  | ErrSyntax => "invalid syntax"
  | ErrRange => "value out of range"
  | ErrNoRows => "sql: no rows in result set"
  | NumError Func Num Err =>
      "strconv." +:+ Func +:+ ": parsing " +:+ Quote Num +:+ ": " +:+ Error Err
  | wrapError msg _ => msg
  | errorString msg => msg
  end.

(** [fmt.Errorf(prefix + "%w", err)] *)
Definition Errorf_w (prefix : string) (err : error) : error :=
  wrapError (prefix +:+ Error err) err.

Definition tableName : string := "austinrecycling".

(** [fmt.Sprintf] of the query template with [tableName] for its [%v]:
    the text before the verb, the operand, the text behind the verb. *)
Definition queryStr : string :=
  "SELECT COALESCE(jsonb_agg(t.feature), '[]'::jsonb)
		FROM (
			SELECT jsonb_build_object(
				'type', 'Feature',
				'geometry', ST_AsGeoJSON(wkb_geometry)::jsonb,
				'properties', to_jsonb(row) - 'ogc_fid' - 'wkb_geometry'
			) AS feature
			FROM (
				SELECT *, 
					-- Calculate distance in KM
					ST_Distance(
						ST_GEOGFromWKB(wkb_geometry), 
						ST_SetSRID(ST_MakePoint($1, $2), 4326)::geography 
					) / 1000 AS distance_km
				FROM " +:+ tableName +:+ "
				WHERE ST_DWithin(
					ST_GEOGFromWKB(wkb_geometry), 
					ST_SetSRID(ST_MakePoint($1, $2), 4326)::geography, 
					$3 -- Radius in meters
				)
				ORDER BY distance_km
				LIMIT 25
			) row
		) t;
		".

(** [getGeoJSONFromDatabase]: the returned pair, and the queries made on
    [db] on the way. *)
Definition getGeoJSONFromDatabase (centerLatStr centerLngStr radiusMetersStr : string)
  : (string * option error) * list Query :=
  let '(centerLat, err) := ParseFloat centerLatStr in
  match err with
  | Some err => ((EmptyString, Some (Errorf_w "invalid latitude: " err)), [])
  | None =>
  let '(centerLng, err) := ParseFloat centerLngStr in
  match err with
  | Some err => ((EmptyString, Some (Errorf_w "invalid longitude: " err)), [])
  | None =>
  let '(radiusMeters, err) := strconv.Atoi radiusMetersStr in
  match err with
  | Some err => ((EmptyString, Some (Errorf_w "invalid radius: " err)), [])
  | None =>
  (* $1 = Longitude, $2 = Latitude, $3 = Radius in Meters *)
  let args := [Float64 centerLng; Float64 centerLat; Int64 radiusMeters] in
  match QueryRowScan queryStr args with
  | inr err =>
      if is_ErrNoRows err then (("[]", None), [(queryStr, args)])
      else ((EmptyString, Some (Errorf_w "error scanning row: " err)), [(queryStr, args)])
  | inl featureCollection => ((featureCollection, None), [(queryStr, args)])
  end end end end.

Definition is_empty (s : string) : bool :=
  match s with EmptyString => true | _ => false end.

(** [fmt.Fprintf(w, format)] with no operand *)
Definition Fprintf (w : http.ResponseWriter) (format : string) : http.ResponseWriter :=
  http.Write w (fmt.Sprintf0 format).

(** [apiSearchHandler]: the response written on [w], and the queries made
    on [db]. *)
Definition apiSearchHandler (w : http.ResponseWriter) (r : http.Request)
  : http.ResponseWriter * list Query :=
  let w := http.setHeader w (http.Header_Set (http.header w) "Access-Control-Allow-Origin" "*") in
  let w := http.setHeader w (http.Header_Set (http.header w) "Content-type" "application/json") in
  let centerLatStr := http.Values_Get (http.URL_Query r) "lat" in
  let centerLngStr := http.Values_Get (http.URL_Query r) "lng" in
  let radiusMetersStr := http.Values_Get (http.URL_Query r) "radius" in
  let radiusMetersStr := if is_empty radiusMetersStr then "10000" else radiusMetersStr in
  if is_empty centerLatStr || is_empty centerLngStr then
    (http.Error w (raw "{'error': 'Missing latitude or longitude parameter'}")
       http.StatusBadRequest, [])
  else
    match getGeoJSONFromDatabase centerLatStr centerLngStr radiusMetersStr with
    | ((_, Some err), queries) =>
        let str := raw "{'status': 'error', 'error': 'Internal server error during query: "
                     +:+ Error err +:+ raw "'}" in
        (http.Error w str http.StatusInternalServerError, queries)
    | ((geoJSON, None), queries) =>
        let finalResponse := raw "{'status': 'ok', 'features': " +:+ geoJSON +:+ "}" in
        (Fprintf w finalResponse, queries)
    end.

End Server.

(** ** The SQL statement

    What the text of [queryStr] computes on the rows of the table, with the
    bind values [$1], [$2], [$3].  The PostGIS and jsonb functions the text
    calls are parameters, under the names the text gives them; each stands
    for the value PostgreSQL computes where the call does not raise (a raised
    error fails the statement and reaches Go as the error of [Scan]). *)

(** The ordering of float8 that ORDER BY uses: numeric order, with NaN equal
    to itself and above every other value. *)
Definition float8_cmp (a b : float64) : comparison :=
  match SFcompare a b with
  | Some c => c
  | None =>
      match a, b with
      | S754_nan, S754_nan => Eq
      | S754_nan, _ => Gt
      | _, _ => Lt
      end
  end.

Definition float8_le (a b : float64) : bool :=
  match float8_cmp a b with Gt => false | _ => true end.

Class PostGIS : Type := {
  geometry : Type;
  geography : Type;
  jsonb : Type;
  (** a row of the table [austinrecycling] *)
  record : Type;
  wkb_geometry : record -> geometry;
  ST_GEOGFromWKB : geometry -> geography;
  ST_MakePoint : float64 -> float64 -> geometry;
  ST_SetSRID : geometry -> Z -> geometry;
  (** the cast [::geography] *)
  to_geography : geometry -> geography;
  ST_Distance : geography -> geography -> float64;
  ST_DWithin : geography -> geography -> Z -> bool;
  (** [ST_AsGeoJSON(g)::jsonb] *)
  ST_AsGeoJSON : geometry -> jsonb;
  (** float8 [/] with an integer literal on the right *)
  float8_div : float64 -> Z -> float64;
  (** [to_jsonb(row)] for a row of the innermost SELECT: the columns of the
      table row and [distance_km] *)
  to_jsonb : record -> float64 -> jsonb;
  (** the operator [jsonb - text] *)
  jsonb_delete : jsonb -> string -> jsonb;
  jsonb_text : string -> jsonb;
  jsonb_build_object : list (string * jsonb) -> jsonb;
  (** the text output of a jsonb value *)
  jsonb_out : jsonb -> string
}.

Section Statement.

Context `{!PostGIS}.

(** [ST_SetSRID(ST_MakePoint($1, $2), 4326)::geography] *)
Definition center (p1 p2 : float64) : geography :=
  to_geography (ST_SetSRID (ST_MakePoint p1 p2) 4326).

(** The WHERE clause *)
Definition within (p1 p2 : float64) (p3 : Z) (r : record) : bool :=
  ST_DWithin (ST_GEOGFromWKB (wkb_geometry r)) (center p1 p2) p3.

(** [... / 1000 AS distance_km] *)
Definition distance_km (p1 p2 : float64) (r : record) : float64 :=
  float8_div (ST_Distance (ST_GEOGFromWKB (wkb_geometry r)) (center p1 p2)) 1000.

(** ORDER BY distance_km, on rows that carry their [distance_km] *)
Definition by_distance_km (a b : record * float64) : Prop :=
  float8_le (snd a) (snd b) = true.

#[export] Instance by_distance_km_dec a b : Decision (by_distance_km a b) :=
  bool_eq_dec _ _.

(** The innermost SELECT, named [row]: the rows that pass WHERE, each with
    its [distance_km], ordered, the first 25. *)
Definition select_row (table : list record) (p1 p2 : float64) (p3 : Z)
  : list (record * float64) :=
  take 25
    (merge_sort by_distance_km
       (map (fun r => (r, distance_km p1 p2 r))
          (List.filter (within p1 p2 p3) table))).

(** The middle SELECT, named [t]: one [feature] per row *)
Definition feature (row : record * float64) : jsonb :=
  jsonb_build_object
    [("type", jsonb_text "Feature");
     ("geometry", ST_AsGeoJSON (wkb_geometry (fst row)));
     ("properties",
       jsonb_delete (jsonb_delete (to_jsonb (fst row) (snd row)) "ogc_fid") "wkb_geometry")].

(** [jsonb_agg]: NULL over no rows, else the array of its inputs in their
    order *)
Definition jsonb_agg (l : list jsonb) : option (list jsonb) :=
  match l with
  | [] => None
  | _ => Some l
  end.

Definition COALESCE {A : Type} (x : option A) (y : A) : A :=
  match x with
  | Some a => a
  | None => y
  end.

(** The whole statement: a jsonb array, given by its elements *)
Definition select_features (table : list record) (p1 p2 : float64) (p3 : Z)
  : list jsonb :=
  COALESCE (jsonb_agg (map feature (select_row table p1 p2 p3))) [].

Fixpoint join (sep : string) (l : list string) : string :=
  match l with
  | [] => EmptyString
  | [x] => x
  | x :: l' => x +:+ sep +:+ join sep l'
  end.

(** The text of a jsonb array, as [Scan] stores it in a Go string *)
Definition jsonb_array_out (a : list jsonb) : string :=
  "[" +:+ join ", " (map jsonb_out a) +:+ "]".

End Statement.

(** ** The process: [main] and [initDB]

    The environment, the driver and the listener are parameters.  [main] is
    modelled by the trace of what it does. *)
Class Process : Type := {
  Getenv : string -> string;
  (** [sql.Open(driverName, dataSourceName)] *)
  sql_Open : string -> string -> option error;
  (** [db.Ping()] *)
  db_Ping : option error;
  (** [http.ListenAndServe(addr, nil)]: the error it returns with, [None]
      while it keeps serving *)
  http_ListenAndServe : string -> option error
}.

Inductive handler : Type :=
  | FileServer (dir : string)
  | HandlerFunc (f : http.ResponseWriter -> http.Request -> http.ResponseWriter * list Query).

Inductive event : Type :=
  | Log (line : string)
  | Exit (code : Z)
  | SqlOpen (driverName dataSourceName : string)
  | SetMaxIdleConns (n : Z)
  | SetMaxOpenConns (n : Z)
  | SetConnMaxLifetime (d : Z)
  | Ping
  | Handle (pattern : string) (h : handler)
  | ListenAndServe (addr : string).

(** An event after which requests are served *)
Definition serves (e : event) : bool :=
  match e with
  | Handle _ _ | ListenAndServe _ => true
  | _ => false
  end.

Section Main.

Context `{!Strconv} `{!Database} `{!Process}.

(** [log.Fatalf] and [log.Fatal]: the line, then [os.Exit(1)] *)
Definition Fatal (line : string) : list event := [Log line; Exit 1].

(** [initDB]: the error it returns and what it did *)
Definition initDB : option error * list event :=
  let instanceConnectionName := Getenv "INSTANCE_CONNECTION_NAME" in
  let dbUser := Getenv "DB_USER" in
  let dbPassword := Getenv "DB_PASSWORD" in
  let dbName := Getenv "DB_NAME" in
  let dbUser := if is_empty dbUser then "postgres" else dbUser in
  let dbName := if is_empty dbName then "recycling_db" else dbName in
  let '(connectionString, tr) :=
    if negb (is_empty instanceConnectionName) then
      ("user=" +:+ dbUser +:+ " password=" +:+ dbPassword +:+ " database=" +:+ dbName
         +:+ " host=/cloudsql/" +:+ instanceConnectionName, [])
    else
      ("host=127.0.0.1 port=5432 user=" +:+ dbUser +:+ " password=" +:+ dbPassword
         +:+ " database=" +:+ dbName +:+ " sslmode=disable",
       if is_empty dbPassword
       then [Log "WARNING: DB_PASSWORD environment variable not set. Assuming unsecure local connection."]
       else []) in
  let tr := tr ++ [SqlOpen "postgres" connectionString] in
  match sql_Open "postgres" connectionString with
  | Some err => (Some (Errorf_w "sql.Open failed: " err), tr)
  | None =>
      let tr := tr ++ [SetMaxIdleConns 5; SetMaxOpenConns 7; SetConnMaxLifetime 1800; Ping] in
      match db_Ping with
      | Some err => (Some (Errorf_w "db.Ping failed: " err), tr)
      | None => (None, tr ++ [Log ("Successfully connected to database: " +:+ dbName)])
      end
  end.

Definition main : list event :=
  let '(err, tr) := initDB in
  match err with
  | Some err => tr ++ Fatal ("Failed to initialize database: " +:+ Error err)
  | None =>
      let tr := tr ++ [Handle "/" (FileServer "static");
                       Handle "/api/search" (HandlerFunc apiSearchHandler)] in
      let port := Getenv "PORT" in
      let port := if is_empty port then "8080" else port in
      let tr := tr ++ [Log ("Store Locator Backend (Go) listening on port " +:+ port);
                       ListenAndServe (":" +:+ port)] in
      match http_ListenAndServe (":" +:+ port) with
      | Some err => tr ++ Fatal (Error err)
      | None => tr
      end
  end.

End Main.

(** ** Requests and responses *)

Section Pipeline.

Context `{!Strconv} `{!Database}.

(** The response to a request: the handler run on a fresh
    [ResponseWriter]. *)
Definition respond (r : http.Request) : http.ResponseWriter * list Query :=
  apiSearchHandler http.newResponse r.

Definition param (r : http.Request) (key : string) : string :=
  http.Values_Get (http.URL_Query r) key.

(** The radius string the handler goes on with *)
Definition radius_or_default (r : http.Request) : string :=
  if is_empty (param r "radius") then "10000" else param r "radius".

(** A validated request: the checks that [apiSearchHandler] and
    [getGeoJSONFromDatabase] make before the query all pass, with these
    values. *)
Definition validated (r : http.Request) (lat lng : float64) (radius : Z) : Prop :=
  param r "lat" <> EmptyString /\
  param r "lng" <> EmptyString /\
  ParseFloat (param r "lat") = (lat, None) /\
  ParseFloat (param r "lng") = (lng, None) /\
  strconv.Atoi (radius_or_default r) = (radius, None).

(** The writer once the handler has set its two headers *)
Definition prepared : http.ResponseWriter :=
  let w := http.newResponse in
  let w := http.setHeader w (http.Header_Set (http.header w) "Access-Control-Allow-Origin" "*") in
  http.setHeader w (http.Header_Set (http.header w) "Content-type" "application/json").

(** The three bodies the handler writes *)
Definition missing_body : string :=
  raw "{'error': 'Missing latitude or longitude parameter'}" +:+ http.newline.

Definition error_body (message : string) : string :=
  (raw "{'status': 'error', 'error': 'Internal server error during query: "
     +:+ message +:+ raw "'}") +:+ http.newline.

Definition ok_body (payload : string) : string :=
  raw "{'status': 'ok', 'features': " +:+ payload +:+ "}".

End Pipeline.

(** An integer numeral: an optional sign and one or more decimal digits;
    its value. *)
Fixpoint digits_value (s : string) (acc : Z) : option Z :=
  match s with
  | EmptyString => Some acc
  | String c s' =>
      if is_digit c then digits_value s' (acc * 10 + (byteZ c - 48)) else None
  end.

Definition integer_numeral (s : string) : option Z :=
  match s with
  | EmptyString => None
  | String c rest =>
      if byteZ c =? 45 then
        match rest with
        | EmptyString => None
        | _ => option_map Z.opp (digits_value rest 0)
        end
      else if byteZ c =? 43 then
        match rest with
        | EmptyString => None
        | _ => digits_value rest 0
        end
      else digits_value s 0
  end.

(** ** Collaborators for the worked examples *)
Module Sample.

Definition of_Z (z : Z) : float64 := binary_normalize 53 1024 z 0 false.

(** [m / 10^k] rounded once: the float64 nearest to the decimal numeral,
    for [|m| < 2^53] and [k <= 22] (both operands are then exact). *)
Definition decimal (m : Z) (k : Z) : float64 :=
  SFdiv 53 1024 (of_Z m) (of_Z (10 ^ k)).

(** What [strconv.ParseFloat(s, 64)] returns for the numerals the examples
    use. *)
Definition ParseFloat_known : list (string * float64) :=
  [("30.27", decimal 3027 2); ("-97.74", decimal (-9774) 2);
   ("999", decimal 999 0); ("0", S754_zero false);
   ("NaN", S754_nan); ("Inf", S754_infinity false)].

Fixpoint assoc (s : string) (l : list (string * float64)) : option float64 :=
  match l with
  | [] => None
  | (k, v) :: l' => if String.eqb k s then Some v else assoc s l'
  end.

(** [ParseFloat] on the numerals above and on strings that are no number
    at all *)
Definition ParseFloat_sample (s : string) : float64 * option error :=
  match assoc s ParseFloat_known with
  | Some f => (f, None)
  | None => (S754_zero false, Some (strconv.syntaxError "ParseFloat" s))
  end.

Definition lowerhex (z : Z) : ascii :=
  if z <? 10 then byte_of (48 + z) else byte_of (87 + z).

(** [strconv.Quote] on a string of ASCII bytes *)
Fixpoint Quote_body (s : string) : string :=
  match s with
  | EmptyString => String dquote EmptyString
  | String c s' =>
      let b := byteZ c in
      let bs := String (byte_of 92) EmptyString in
      (if (b =? 34) || (b =? 92) then bs +:+ String c EmptyString
       else if (32 <=? b) && (b <? 127) then String c EmptyString
       else if b =? 7 then bs +:+ "a"
       else if b =? 8 then bs +:+ "b"
       else if b =? 12 then bs +:+ "f"
       else if b =? 10 then bs +:+ "n"
       else if b =? 13 then bs +:+ "r"
       else if b =? 9 then bs +:+ "t"
       else if b =? 11 then bs +:+ "v"
       else bs +:+ "x" +:+ String (lowerhex (b / 16)) (String (lowerhex (b mod 16)) EmptyString))
      +:+ Quote_body s'
  end.

Definition Quote_ascii (s : string) : string := String dquote (Quote_body s).

#[export] Instance sample_strconv : Strconv :=
  {| ParseFloat := ParseFloat_sample; Quote := Quote_ascii |}.

(** A database whose answer to every query is [r] *)
Definition answers (r : string + error) : Database :=
  {| QueryRowScan := fun _ _ => r |}.

(** A request with the given query parameters, one value each *)
Definition request (params : list (string * string)) : http.Request :=
  http.mkRequest (list_to_map (map (fun kv => (fst kv, [snd kv])) params)).

(** The response to such a request, with the database [db] *)
Definition serve (db : Database) (params : list (string * string))
  : http.ResponseWriter * list Query :=
  @respond sample_strconv db (request params).

(** Points on a line, positions in metres: a world small enough to
    evaluate the statement in. *)
Definition trunc (f : float64) : Z :=
  match f with
  | S754_finite s m e =>
      let a := if 0 <=? e then Z.pos m * 2 ^ e else Z.pos m / 2 ^ (- e) in
      if s then - a else a
  | _ => 0
  end.

#[export] Instance line_world : PostGIS := {|
  geometry := Z;
  geography := Z;
  jsonb := string;
  record := string * Z;
  wkb_geometry := snd;
  ST_GEOGFromWKB := fun g => g;
  ST_MakePoint := fun x _ => trunc x;
  ST_SetSRID := fun g _ => g;
  to_geography := fun g => g;
  ST_Distance := fun a b => of_Z (Z.abs (a - b));
  ST_DWithin := fun a b r => Z.abs (a - b) <=? r;
  ST_AsGeoJSON := fun _ => "null";
  float8_div := fun x n => SFdiv 53 1024 x (of_Z n);
  to_jsonb := fun r _ => fst r;
  jsonb_delete := fun j _ => j;
  jsonb_text := fun s => s;
  jsonb_build_object := fun kvs =>
    match kvs with
    | [_; _; (_, p)] => p
    | _ => "null"
    end;
  jsonb_out := fun j => j
|}.

Definition env (vars : list (string * string)) (name : string) : string :=
  match List.find (fun kv => String.eqb (fst kv) name) vars with
  | Some kv => snd kv
  | None => EmptyString
  end.

(** A process with no environment variable set, whose database does not
    answer the ping *)
Definition unreachable : Process :=
  {| Getenv := env [];
     sql_Open := fun _ _ => None;
     db_Ping := Some (errorString "dial tcp 127.0.0.1:5432: connect: connection refused");
     http_ListenAndServe := fun _ => None |}.

(** A process whose database answers and whose listener keeps serving *)
Definition reachable : Process :=
  {| Getenv := env [("PORT", "9000"); ("DB_PASSWORD", "pw")];
     sql_Open := fun _ _ => None;
     db_Ping := None;
     http_ListenAndServe := fun _ => None |}.

End Sample.

(** [ListenAndServe] events *)
Definition is_listen (e : event) : bool :=
  match e with ListenAndServe _ => true | _ => false end.

(** ** Further collaborators for the worked examples *)
Module Scenario.

(** A request whose keys may have several values *)
Definition request (params : list (string * list string)) : http.Request :=
  http.mkRequest (list_to_map params).

(** A database whose every scan fails with a driver error *)
Definition failing : Database :=
  Sample.answers (inr (errorString "pq: the database system is shutting down")).

End Scenario.

(** * Properties *)

(** ** Library facts *)

Lemma is_empty_true s : is_empty s = true <-> s = EmptyString.
Proof. destruct s; simpl; split; congruence. Qed.

Lemma is_empty_false s : is_empty s = false <-> s <> EmptyString.
Proof. destruct s; simpl; split; congruence. Qed.

Lemma cut_no_byte b s : has_byte b s = false -> fmt.cut b s = None.
Proof.
  induction s as [|c s IH]; simpl; [done|].
  intros [Hc Hs]%orb_false_iff. rewrite Hc, (IH Hs). done.
Qed.


Lemma append_assoc (s t u : string) : (s +:+ t) +:+ u = s +:+ t +:+ u.
Proof.
  induction s as [|c s IH]; [done|].
  change (String c ((s +:+ t) +:+ u) = String c (s +:+ t +:+ u)). by rewrite IH.
Qed.

Lemma has_byte_app b s t : has_byte b (s +:+ t) = has_byte b s || has_byte b t.
Proof.
  induction s as [|c s IH]; [done|].
  change (has_byte b (String c (s +:+ t)) = has_byte b (String c s) || has_byte b t).
  cbn [has_byte]. by rewrite IH, orb_assoc.
Qed.


(** *** The rounds of [doPrintf]: every round shortens the format *)
Section Fuel.
Import fmt.
Local Open Scope nat_scope.

Lemma skip_flags_length s : String.length (skip_flags s) <= String.length s.
Proof. induction s as [|c s IH]; simpl; [lia|]. destruct (is_flag c); simpl; lia. Qed.

Lemma cut_length b s l r :
cut b s = Some (l, r) -> String.length r < String.length s.
Proof.
revert l. induction s as [|c s IH]; intros l; simpl; [done|].
destruct (byteZ c =? b)%Z; [intros [= _ <-]; lia|].
destruct (cut b s) as [[l' r']|]; [|done]. intros [= _ <-].
specialize (IH _ eq_refl). lia.
Qed.

Lemma parsenum_length s num isnum n b r :
parsenum s num isnum = (n, b, Some r) -> String.length r <= String.length s.
Proof.
revert num isnum. induction s as [|c s IH]; intros num isnum; simpl.
- intros [= _ _ <-]. simpl. lia.
- destruct (is_digit c).
  + destruct (tooLarge num); [done|]. intros H%IH. lia.
  + intros [= _ _ <-]. simpl. lia.
Qed.

Lemma parseArgNumber_length s rest ok :
parseArgNumber s = (rest, ok) -> String.length rest <= String.length s.
Proof.
unfold parseArgNumber. destruct (_ <? _); [intros [= <- _]; lia|].
destruct (cut 93 s) as [[inner r]|] eqn:Hc; [|intros [= <- _]; lia].
apply cut_length in Hc. repeat case_match; intros [= <- _]; lia.
Qed.

Lemma argNumber_length s good rest found good' :
argNumber s good = (rest, found, good') -> String.length rest <= String.length s.
Proof.
unfold argNumber. destruct s as [|c s]; [intros [= <- _ _]; lia|].
destruct (byteZ c =? 91)%Z; [|intros [= <- _ _]; lia].
destruct (parseArgNumber s) as [r ok] eqn:Hp. apply parseArgNumber_length in Hp.
intros [= <- _ _]. simpl. lia.
Qed.

Lemma recode_length c s r rest :
utf8.recode c s = (r, rest) -> String.length rest <= String.length s.
Proof.
unfold utf8.recode. repeat case_match; intros [= _ <-]; simpl; lia.
Qed.

Ltac lengths :=
repeat match goal with
  | H : argNumber _ _ = _ |- _ => apply argNumber_length in H
  | H : parsenum _ _ _ = (_, _, Some _) |- _ => apply parsenum_length in H
  | H : utf8.recode _ _ = _ |- _ => apply recode_length in H
  end.

Lemma verb_length s out rest :
verb s = (out, Some rest) -> String.length rest < String.length s.
Proof.
unfold verb. pose proof (skip_flags_length s) as Hf.
repeat case_match; simplify_eq; lengths; intros; simplify_eq; simpl in *; lia.
Qed.

Lemma doPrintf_fuel n m s :
String.length s < n -> String.length s < m -> doPrintf n s = doPrintf m s.
Proof.
revert m s. induction n as [|n IH]; intros m s Hn Hm; [lia|].
destruct m as [|m]; [lia|]. simpl.
destruct (cut 37 s) as [[text s1]|] eqn:Hc; [|done].
apply cut_length in Hc.
destruct (verb s1) as [out [rest|]] eqn:Hv; [|done].
apply verb_length in Hv. rewrite (IH m rest); [done|lia|lia].
Qed.

End Fuel.

(** *** strconv.Atoi accepts just the integer numerals of the int range *)
Section AtoiFacts.
Import strconv.

Lemma byteZ_range c : 0 <= byteZ c < 256.
Proof.
unfold byteZ. pose proof (Ascii.N_ascii_bounded c) as Hb. lia.
Qed.

Lemma is_digit_spec c : is_digit c = true <-> 48 <= byteZ c <= 57.
Proof. unfold is_digit. rewrite andb_true_iff, !Z.leb_le. done. Qed.

Lemma Atoi_loop_value s0 s acc n :
Atoi_loop s0 s acc = (n, None) -> digits_value s acc = Some n.
Proof.
revert acc. induction s as [|c s IH]; intros acc; simpl.
- by intros [= ->].
- pose proof (byteZ_range c) as Hc.
  destruct (9 <? (byteZ c - 48) mod 256) eqn:Hd; [done|].
  apply Z.ltb_ge in Hd.
  assert (48 <= byteZ c <= 57) as Hdig.
  { destruct (Z_lt_dec (byteZ c) 48) as [Hlt|Hge].
    - replace ((byteZ c - 48) mod 256) with (byteZ c - 48 + 256) in Hd; [lia|].
      apply (Z.mod_unique _ _ (-1)); lia.
    - rewrite Z.mod_small in Hd; lia. }
  rewrite (proj2 (is_digit_spec c) Hdig).
  rewrite Z.mod_small by lia. apply IH.
Qed.

Lemma ParseUint_loop_value s0 s acc n :
0 <= acc < 2 ^ 64 ->
ParseUint_loop s0 s acc = (n, None) ->
digits_value s acc = Some n /\ 0 <= n < 2 ^ 64.
Proof.
revert acc. induction s as [|c s IH]; intros acc Hacc; simpl.
- intros [= ->]. done.
- destruct (is_digit c) eqn:Hdig; [|done].
  apply is_digit_spec in Hdig.
  destruct (maxUint64 / 10 + 1 <=? acc) eqn:Hcut; [done|].
  apply Z.leb_gt in Hcut.
  assert (acc * 10 < 2 ^ 64) as Hmul.
  { unfold maxUint64 in Hcut. 
    change ((2 ^ 64 - 1) / 10 + 1) with 1844674407370955162 in Hcut.
    change (2 ^ 64) with 18446744073709551616. lia. }
  rewrite (Z.mod_small (acc * 10)) by lia.
  set (d := byteZ c - 48) in *.
  destruct (Z_lt_dec (acc * 10 + d) (2 ^ 64)) as [Hlt|Hge].
  + rewrite (Z.mod_small (acc * 10 + d)) by lia.
    destruct (_ || _); [done|]. apply IH. lia.
  + replace ((acc * 10 + d) mod 2 ^ 64) with (acc * 10 + d - 2 ^ 64).
    2:{ apply (Z.mod_unique _ _ 1); lia. }
    assert ((acc * 10 + d - 2 ^ 64 <? acc * 10) = true) as ->; [apply Z.ltb_lt; lia|].
    done.
Qed.

Lemma ParseUint_range_error s un fn num :
ParseUint s = (un, Some (NumError fn num ErrRange)) -> un = 2 ^ 64 - 1.
Proof.
unfold ParseUint. destruct s as [|c0 s0']; [done|].
generalize (String c0 s0') at 1 as s0. generalize (String c0 s0') as s. generalize 0 as acc.
intros acc s; revert acc. induction s as [|c s IH]; intros acc s0; simpl; [done|].
destruct (is_digit c); [|done].
destruct (_ <=? _); [by intros [= <- _ _]|].
destruct (_ || _); [by intros [= <- _ _]|]. apply IH.
Qed.

Lemma ParseUint_value s un :
ParseUint s = (un, None) ->
s <> EmptyString /\ digits_value s 0 = Some un /\ 0 <= un < 2 ^ 64.
Proof.
unfold ParseUint. destruct s as [|c s]; [done|].
intros H%ParseUint_loop_value; [|lia]. split; [done|exact H].
Qed.

Lemma int64_small z : - 2 ^ 63 <= z < 2 ^ 63 -> int64 z = z.
Proof. intros Hz. unfold int64. rewrite Z.mod_small; lia. Qed.

Lemma ParseInt_value s n :
ParseInt s = (n, None) -> integer_numeral s = Some n.
Proof.
unfold ParseInt, integer_numeral. destruct s as [|c rest]; [done|].
set (s := String c rest).
change (2 ^ (intSize - 1)) with (2 ^ 63).
destruct (byteZ c =? 45) eqn:Hneg; simpl.
- rewrite orb_true_r.
  destruct (ParseUint rest) as [un [err|]] eqn:HU.
  + destruct err as [| | |fn num []| |]; try done.
    apply ParseUint_range_error in HU as ->. done.
  + apply ParseUint_value in HU as (Hne & -> & Hun).
    destruct rest; [done|].
    destruct (2 ^ 63 <? un) eqn:Hcut; [done|]. apply Z.ltb_ge in Hcut.
    intros [= <-]. simpl. f_equal.
    destruct (Z.eq_dec un (2 ^ 63)) as [->|Hlt]; [reflexivity|].
    rewrite (int64_small un) by lia. symmetry. apply int64_small. lia.
- rewrite orb_false_r.
  assert (forall t, t <> EmptyString ->
            (let '(un, err) := ParseUint t in
             match err with
             | Some (NumError _ _ ErrRange) | None =>
                 if 2 ^ 63 <=? un
                 then (int64 (2 ^ 63 - 1), Some (rangeError "ParseInt" s))
                 else (int64 un, None)
             | Some (NumError _ _ Err) => (0, Some (NumError "ParseInt" s Err))
             | Some e => (0, Some e)
             end) = (n, None) -> digits_value t 0 = Some n) as Hpos.
  { intros t Ht. destruct (ParseUint t) as [un [err|]] eqn:HU.
    - destruct err as [| | |fn num []| |]; try done.
      apply ParseUint_range_error in HU as ->. done.
    - apply ParseUint_value in HU as (_ & -> & Hun).
      destruct (2 ^ 63 <=? un) eqn:Hcut; [done|]. apply Z.leb_gt in Hcut.
      intros [= <-]. f_equal. symmetry. apply int64_small. lia. }
  destruct (byteZ c =? 43) eqn:Hplus.
  + destruct rest as [|c' rest']; [done|]. apply Hpos. done.
  + apply Hpos. done.
Qed.

Lemma Atoi_value s n : Atoi s = (n, None) -> integer_numeral s = Some n.
Proof.
unfold Atoi.
destruct ((0 <? Z.of_nat (String.length s)) && (Z.of_nat (String.length s) <? 19)).
- destruct s as [|c rest]; [done|]. unfold integer_numeral.
  remember (String c rest) as s eqn:Hs.
  assert (forall c' rest', (Z.of_nat (String.length (String c' rest')) <? 1) = false)
    as Hlen by (intros; apply Z.ltb_ge; cbn [String.length]; lia).
  destruct (byteZ c =? 45) eqn:Hneg; [|destruct (byteZ c =? 43) eqn:Hplus];
    cbn [orb andb].
  + destruct rest as [|c' rest']; [done|]. rewrite Hlen.
    destruct (Atoi_loop s (String c' rest') 0) as [n' [e|]] eqn:HL; [done|].
    apply Atoi_loop_value in HL. intros [= <-]. by rewrite HL.
  + destruct rest as [|c' rest']; [done|]. rewrite Hlen.
    destruct (Atoi_loop s (String c' rest') 0) as [n' [e|]] eqn:HL; [done|].
    apply Atoi_loop_value in HL. by intros [= <-].
  + destruct (Atoi_loop s s 0) as [n' [e|]] eqn:HL; [done|].
    apply Atoi_loop_value in HL. by intros [= <-].
- destruct (ParseInt s) as [i64 [e|]] eqn:HP.
  + by destruct e.
  + intros [= <-]. by apply ParseInt_value.
Qed.

Lemma digits_value_digit c s acc v :
digits_value (String c s) acc = Some v ->
48 <= byteZ c <= 57 /\ digits_value s (acc * 10 + (byteZ c - 48)) = Some v.
Proof.
simpl. destruct (is_digit c) eqn:Hd; [|done]. apply is_digit_spec in Hd. done.
Qed.

Lemma digits_value_ge s acc v : 0 <= acc -> digits_value s acc = Some v -> acc <= v.
Proof.
revert acc. induction s as [|c s IH]; intros acc Hacc.
- simpl. intros [= ->]. lia.
- intros [Hc Hv]%digits_value_digit. apply IH in Hv; lia.
Qed.

Lemma digits_value_lt s acc v :
0 <= acc -> digits_value s acc = Some v ->
v < (acc + 1) * 10 ^ Z.of_nat (String.length s).
Proof.
revert acc. induction s as [|c s IH]; intros acc Hacc.
- simpl. intros [= ->]. lia.
- intros [Hc Hv]%digits_value_digit. apply IH in Hv; [|lia].
  cbn [String.length]. rewrite Nat2Z.inj_succ, Z.pow_succ_r by lia.
  assert (0 < 10 ^ Z.of_nat (String.length s)) by (apply Z.pow_pos_nonneg; lia).
  nia.
Qed.

Lemma Atoi_loop_complete s0 s acc v :
digits_value s acc = Some v -> Atoi_loop s0 s acc = (v, None).
Proof.
revert acc. induction s as [|c s IH]; intros acc.
- simpl. by intros [= ->].
- intros [Hc Hv]%digits_value_digit. simpl.
  rewrite Z.mod_small by lia.
  assert ((9 <? byteZ c - 48) = false) as -> by (apply Z.ltb_ge; lia).
  by apply IH.
Qed.

Lemma ParseUint_loop_complete s0 s acc v :
0 <= acc -> digits_value s acc = Some v -> v < 2 ^ 64 ->
ParseUint_loop s0 s acc = (v, None).
Proof.
revert acc. induction s as [|c s IH]; intros acc Hacc.
- simpl. by intros [= ->].
- intros [Hc Hv]%digits_value_digit Hlt. simpl.
  rewrite (proj2 (is_digit_spec c) Hc).
  assert (acc * 10 + (byteZ c - 48) <= v) as Hge
    by (apply (digits_value_ge s); [lia|done]).
  change (maxUint64 / 10 + 1) with 1844674407370955162.
  change (2 ^ 64) with 18446744073709551616 in *.
  assert ((1844674407370955162 <=? acc) = false) as -> by (apply Z.leb_gt; lia).
  rewrite (Z.mod_small (acc * 10)) by lia.
  rewrite (Z.mod_small (acc * 10 + _)) by lia.
  assert ((acc * 10 + (byteZ c - 48) <? acc * 10) = false) as -> by (apply Z.ltb_ge; lia).
  change (2 ^ intSize - 1) with 18446744073709551615.
  assert ((18446744073709551615 <? acc * 10 + (byteZ c - 48)) = false) as ->
    by (apply Z.ltb_ge; lia).
  apply IH; [lia|done|lia].
Qed.

Lemma ParseUint_complete s v :
s <> EmptyString -> digits_value s 0 = Some v -> v < 2 ^ 64 -> ParseUint s = (v, None).
Proof.
intros Hs Hv Hlt. unfold ParseUint. destruct s; [done|].
by apply ParseUint_loop_complete.
Qed.

Lemma int64_range z : - 2 ^ 63 <= int64 z < 2 ^ 63.
Proof. unfold int64. pose proof (Z.mod_pos_bound (z + 2 ^ 63) (2 ^ 64)). lia. Qed.

Lemma ParseInt_complete s n :
integer_numeral s = Some n -> - 2 ^ 63 <= n < 2 ^ 63 -> ParseInt s = (n, None).
Proof.
unfold integer_numeral, ParseInt. destruct s as [|c rest]; [done|].
change (2 ^ (intSize - 1)) with (2 ^ 63).
destruct (byteZ c =? 45) eqn:Hneg; [|destruct (byteZ c =? 43) eqn:Hplus];
  rewrite ?orb_true_r; cbn [orb negb andb].
- destruct rest as [|c' rest']; [done|].
  destruct (digits_value _ 0) as [un|] eqn:Hun; [|done]. intros [= <-] Hn.
  assert (0 <= un) by (eapply digits_value_ge; [|exact Hun]; lia).
  rewrite (ParseUint_complete _ un) by (done || lia).
  assert ((2 ^ 63 <? un) = false) as -> by (apply Z.ltb_ge; lia).
  f_equal. destruct (Z.eq_dec un (2 ^ 63)) as [->|Hne]; [reflexivity|].
  rewrite (int64_small un) by lia. apply int64_small. lia.
- destruct rest as [|c' rest']; [done|]. intros Hun Hn.
  assert (0 <= n) by (eapply digits_value_ge; [|exact Hun]; lia).
  rewrite (ParseUint_complete _ n) by (done || lia).
  assert ((2 ^ 63 <=? n) = false) as -> by (apply Z.leb_gt; lia).
  f_equal. apply int64_small. lia.
- intros Hun Hn.
  assert (0 <= n) by (eapply digits_value_ge; [|exact Hun]; lia).
  rewrite (ParseUint_complete _ n) by (done || lia).
  assert ((2 ^ 63 <=? n) = false) as -> by (apply Z.leb_gt; lia).
  f_equal. apply int64_small. lia.
Qed.

Lemma Atoi_complete s n :
integer_numeral s = Some n -> - 2 ^ 63 <= n < 2 ^ 63 -> Atoi s = (n, None).
Proof.
intros Hs Hn. unfold Atoi.
destruct ((0 <? Z.of_nat (String.length s)) && (Z.of_nat (String.length s) <? 19)).
- unfold integer_numeral in Hs. destruct s as [|c rest]; [done|].
  remember (String c rest) as s eqn:Es.
  assert (forall c' rest', (Z.of_nat (String.length (String c' rest')) <? 1) = false)
    as Hlen by (intros; apply Z.ltb_ge; cbn [String.length]; lia).
  destruct (byteZ c =? 45) eqn:Hneg; [|destruct (byteZ c =? 43) eqn:Hplus];
    cbn [orb andb].
  + destruct rest as [|c' rest']; [done|]. rewrite Hlen.
    destruct (digits_value _ 0) as [un|] eqn:Hun; [|done]. injection Hs as <-.
    by rewrite (Atoi_loop_complete s _ _ _ Hun).
  + destruct rest as [|c' rest']; [done|]. rewrite Hlen.
    by rewrite (Atoi_loop_complete s _ _ _ Hs).
  + by rewrite (Atoi_loop_complete s _ _ _ Hs).
- by rewrite (ParseInt_complete _ _ Hs Hn).
Qed.

Lemma ParseInt_in_range s n : ParseInt s = (n, None) -> - 2 ^ 63 <= n < 2 ^ 63.
Proof.
unfold ParseInt. destruct s as [|c rest]; [done|].
destruct (ParseUint _) as [un err].
destruct err as [[| | |fn num []| |]|]; try done;
  (destruct (negb _ && _); [done|]; destruct (_ && _); [done|];
   intros [= <-]; destruct (byteZ c =? 45); apply int64_range).
Qed.

Lemma Atoi_in_range s n : Atoi s = (n, None) -> - 2 ^ 63 <= n < 2 ^ 63.
Proof.
unfold Atoi.
destruct ((0 <? Z.of_nat (String.length s)) && (Z.of_nat (String.length s) <? 19)) eqn:Hfast.
- apply andb_true_iff in Hfast as [_ Hlen%Z.ltb_lt].
  destruct s as [|c rest]; [done|]. remember (String c rest) as s eqn:Es.
  assert (forall t v, (Z.of_nat (String.length t) < 19) -> Atoi_loop s t 0 = (v, None) ->
            0 <= v < 2 ^ 63) as Hbound.
  { intros t v Ht Hv%Atoi_loop_value. split; [by eapply digits_value_ge in Hv|].
    apply digits_value_lt in Hv; [|lia].
    assert (10 ^ Z.of_nat (String.length t) <= 10 ^ 18) by (apply Z.pow_le_mono_r; lia).
    change (2 ^ 63) with 9223372036854775808. lia. }
  assert (Z.of_nat (String.length rest) < 19) as Hrest
    by (subst s; cbn [String.length] in Hlen; lia).
  destruct ((byteZ c =? 45) || (byteZ c =? 43)).
  + destruct (_ && _); [done|].
    destruct (Atoi_loop s rest 0) as [v [e|]] eqn:HL; [done|].
    apply Hbound in HL; [|done]. intros [= <-]. destruct (byteZ c =? 45); lia.
  + cbn [andb]. destruct (Atoi_loop s s 0) as [v [e|]] eqn:HL; [done|].
    apply Hbound in HL; [|done]. intros [= <-]. destruct (byteZ c =? 45); lia.
- destruct (ParseInt s) as [i64 [e|]] eqn:HP; [by destruct e|].
  intros [= <-]. by apply ParseInt_in_range in HP.
Qed.

End AtoiFacts.

(** *** The float8 ordering is a total preorder *)

Lemma float8_le_total a b : float8_le a b = true \/ float8_le b a = true.
Proof.
  unfold float8_le, float8_cmp.
  destruct a as [[]|[]| |[] m1 e1], b as [[]|[]| |[] m2 e2]; simpl; auto;
    rewrite !Pos.compare_cont_spec; simpl;
    destruct (Z.compare_spec e1 e2), (Z.compare_spec e2 e1); try lia; auto;
    destruct (Pos.compare_spec m1 m2), (Pos.compare_spec m2 m1); simpl; try lia; auto.
Qed.

Lemma float8_le_trans a b c :
  float8_le a b = true -> float8_le b c = true -> float8_le a c = true.
Proof.
  unfold float8_le, float8_cmp.
  destruct a as [[]|[]| |[] m1 e1], b as [[]|[]| |[] m2 e2], c as [[]|[]| |[] m3 e3];
    simpl; try done;
    rewrite ?Pos.compare_cont_spec; simpl;
    destruct (Z.compare_spec e1 e2), (Z.compare_spec e2 e3), (Z.compare_spec e1 e3);
    try lia; try done;
    destruct (Pos.compare_spec m1 m2), (Pos.compare_spec m2 m3), (Pos.compare_spec m1 m3);
    simpl; try lia; try done.
Qed.


(** ** The handler *)
Section PipelineFacts.

Context `{!Strconv} `{!Database}.


Lemma respond_missing r :
  param r "lat" = EmptyString \/ param r "lng" = EmptyString ->
  respond r =
    (http.Error prepared (raw "{'error': 'Missing latitude or longitude parameter'}")
       http.StatusBadRequest, []).
Proof.
  intros Hm. unfold respond, apiSearchHandler. fold (param r "lat") (param r "lng").
  assert (is_empty (param r "lat") || is_empty (param r "lng") = true) as ->.
  { apply orb_true_iff. rewrite !is_empty_true. done. }
  reflexivity.
Qed.

Lemma respond_present r :
  param r "lat" <> EmptyString -> param r "lng" <> EmptyString ->
  respond r =
    match getGeoJSONFromDatabase (param r "lat") (param r "lng") (radius_or_default r) with
    | ((_, Some err), queries) =>
        (http.Error prepared
           (raw "{'status': 'error', 'error': 'Internal server error during query: "
              +:+ Error err +:+ raw "'}") http.StatusInternalServerError, queries)
    | ((geoJSON, None), queries) =>
        (Fprintf prepared (raw "{'status': 'ok', 'features': " +:+ geoJSON +:+ "}"), queries)
    end.
Proof.
  intros Hlat Hlng. unfold respond, apiSearchHandler.
  fold (param r "lat") (param r "lng") (param r "radius"). fold (radius_or_default r).
  apply is_empty_false in Hlat, Hlng. rewrite Hlat, Hlng. reflexivity.
Qed.

(** Once the three strings parse, exactly one query is made. *)
Lemma getGeoJSON_parsed latStr lngStr radStr lat lng radius :
  ParseFloat latStr = (lat, None) -> ParseFloat lngStr = (lng, None) ->
  strconv.Atoi radStr = (radius, None) ->
  let args := [Float64 lng; Float64 lat; Int64 radius] in
  getGeoJSONFromDatabase latStr lngStr radStr =
    (match QueryRowScan queryStr args with
     | inr err =>
         if is_ErrNoRows err then ("[]", None)
         else (EmptyString, Some (Errorf_w "error scanning row: " err))
     | inl featureCollection => (featureCollection, None)
     end, [(queryStr, args)]).
Proof.
  intros Hlat Hlng Hrad. unfold getGeoJSONFromDatabase. rewrite Hlat, Hlng, Hrad.
  cbn zeta. destruct (QueryRowScan _ _) as [fc|err]; [done|]. by destruct (is_ErrNoRows err).
Qed.

(** When one of them does not parse, no query is made. *)
Lemma getGeoJSON_unparsed latStr lngStr radStr :
  (ParseFloat latStr).2 <> None \/ (ParseFloat lngStr).2 <> None \/
  (strconv.Atoi radStr).2 <> None ->
  exists field cause,
    In field ["latitude"; "longitude"; "radius"] /\
    getGeoJSONFromDatabase latStr lngStr radStr =
      ((EmptyString, Some (Errorf_w ("invalid " +:+ field +:+ ": ") cause)), []).
Proof.
  intros Hbad. unfold getGeoJSONFromDatabase.
  destruct (ParseFloat latStr) as [lat [e1|]].
  { exists "latitude", e1. split; [simpl; auto|done]. }
  destruct (ParseFloat lngStr) as [lng [e2|]].
  { exists "longitude", e2. split; [simpl; auto|done]. }
  destruct (strconv.Atoi radStr) as [radius [e3|]].
  { exists "radius", e3. split; [simpl; auto|done]. }
  simpl in Hbad. by destruct Hbad as [Hb|[Hb|Hb]].
Qed.

Lemma validated_queries r lat lng radius :
  validated r lat lng radius ->
  (respond r).2 = [(queryStr, [Float64 lng; Float64 lat; Int64 radius])].
Proof.
  intros (Hlat & Hlng & Hplat & Hplng & Hrad).
  rewrite (respond_present r Hlat Hlng).
  rewrite (getGeoJSON_parsed _ _ _ _ _ _ Hplat Hplng Hrad). cbn zeta.
  destruct (QueryRowScan _ _) as [fc|err]; [done|]. by destruct (is_ErrNoRows err).
Qed.

(** A request with lat and lng present of which one string does not parse:
    the 500 response around the parse error, and no query. *)
Lemma respond_unparsed r :
  param r "lat" <> EmptyString -> param r "lng" <> EmptyString ->
  (ParseFloat (param r "lat")).2 <> None \/
  (ParseFloat (param r "lng")).2 <> None \/
  (strconv.Atoi (radius_or_default r)).2 <> None ->
  exists field cause,
    In field ["latitude"; "longitude"; "radius"] /\
    respond r =
      (http.Error prepared
         (raw "{'status': 'error', 'error': 'Internal server error during query: "
            +:+ Error (Errorf_w ("invalid " +:+ field +:+ ": ") cause) +:+ raw "'}")
         http.StatusInternalServerError, []).
Proof.
  intros Hlat Hlng Hbad. rewrite (respond_present r Hlat Hlng).
  destruct (getGeoJSON_unparsed _ _ _ Hbad) as (field & cause & Hf & ->).
  by exists field, cause.
Qed.

(** C8 (amended).  When lat or lng is missing (absent, or present with an
    empty value), the response is 400 whatever the other parameters are, and
    no query is made; the body is one fixed text, the same whichever of the
    two is missing: its message is not empty and names both the latitude and
    the longitude parameter. *)
Theorem missing_parameter_is_bad_request (r : http.Request) :
  param r "lat" = EmptyString \/ param r "lng" = EmptyString ->
  let message := "Missing latitude or longitude parameter" in
  http.status (respond r).1 = http.StatusBadRequest /\
  http.body (respond r).1 = raw "{'error': '" +:+ message +:+ raw "'}" +:+ http.newline /\
  message <> EmptyString /\
  Contains message "latitude" = true /\ Contains message "longitude" = true /\
  (respond r).2 = [].
Proof.
  intros Hm. rewrite (respond_missing r Hm). repeat split. done.
Qed.

(** C1 (amended).  When lat and lng are both present and lat, lng or
    radius does not parse, the response is 500 and no query is made: nothing
    falls back to a default.  The body is the error envelope around the
    message "invalid latitude: ", "invalid longitude: " or "invalid radius: "
    followed by the parse error of that very string, the first one in the
    order lat, lng, radius that does not parse. *)
Theorem parse_failure_is_server_error (r : http.Request) :
  param r "lat" <> EmptyString -> param r "lng" <> EmptyString ->
  (ParseFloat (param r "lat")).2 <> None \/
  (ParseFloat (param r "lng")).2 <> None \/
  (strconv.Atoi (radius_or_default r)).2 <> None ->
  http.status (respond r).1 = http.StatusInternalServerError /\
  (respond r).2 = [] /\
  exists field cause,
    ((field = "latitude" /\ (ParseFloat (param r "lat")).2 = Some cause) \/
     (field = "longitude" /\ (ParseFloat (param r "lat")).2 = None /\
      (ParseFloat (param r "lng")).2 = Some cause) \/
     (field = "radius" /\ (ParseFloat (param r "lat")).2 = None /\
      (ParseFloat (param r "lng")).2 = None /\
      (strconv.Atoi (radius_or_default r)).2 = Some cause)) /\
    http.body (respond r).1 =
      error_body ("invalid " +:+ field +:+ ": " +:+ Error cause).
Proof.
  intros Hlat Hlng Hbad. rewrite (respond_present r Hlat Hlng).
  unfold getGeoJSONFromDatabase.
  destruct (ParseFloat (param r "lat")) as [lat [e1|]].
  { repeat split. exists "latitude", e1. split; [by left|reflexivity]. }
  destruct (ParseFloat (param r "lng")) as [lng [e2|]].
  { repeat split. exists "longitude", e2. split; [by right; left|reflexivity]. }
  destruct (strconv.Atoi (radius_or_default r)) as [radius [e3|]].
  { repeat split. exists "radius", e3. split; [by right; right|reflexivity]. }
  cbn in Hbad. by destruct Hbad as [Hb|[Hb|Hb]].
Qed.


(** Every response carries the allow-all origin header; the content type
    is JSON on a 200 and plain text on a 400 or a 500. *)
Lemma response_headers (r : http.Request) :
  let w := (respond r).1 in
  http.sentHeader w !! "Access-Control-Allow-Origin" = Some ["*"] /\
  http.sentHeader w !! "Content-Type" =
    Some [if http.status w =? http.StatusOK then "application/json"
          else "text/plain; charset=utf-8"].
Proof.
  cbn zeta.
  destruct (is_empty (param r "lat") || is_empty (param r "lng")) eqn:Hm.
  - rewrite respond_missing; [done|].
    apply orb_true_iff in Hm. by rewrite !is_empty_true in Hm.
  - apply orb_false_iff in Hm as [Hlat Hlng]. apply is_empty_false in Hlat, Hlng.
    rewrite (respond_present r Hlat Hlng).
    by destruct (getGeoJSONFromDatabase _ _ _) as [[payload [err|]] queries].
Qed.

(** C6.  For any two validated requests the query text is the one fixed
    string [queryStr]; the values of the request reach the database only as
    the three bind values longitude, latitude, radius, in this order. *)
Theorem query_text_is_fixed (r1 r2 : http.Request)
    (lat1 lng1 lat2 lng2 : float64) (radius1 radius2 : Z) :
  validated r1 lat1 lng1 radius1 -> validated r2 lat2 lng2 radius2 ->
  (respond r1).2 = [(queryStr, [Float64 lng1; Float64 lat1; Int64 radius1])] /\
  (respond r2).2 = [(queryStr, [Float64 lng2; Float64 lat2; Int64 radius2])] /\
  map fst (respond r1).2 = map fst (respond r2).2.
Proof.
  intros H1 H2. rewrite (validated_queries _ _ _ _ H1), (validated_queries _ _ _ _ H2).
  done.
Qed.

(** C10.  No range check: whatever float64 values lat and lng parse to
    (NaN and the infinities included) and whatever integer the radius
    parses to (zero and negative included), the query is made with just
    these values. *)
Theorem no_range_checks (r : http.Request) (lat lng : float64) (radius : Z) :
  param r "lat" <> EmptyString -> param r "lng" <> EmptyString ->
  ParseFloat (param r "lat") = (lat, None) ->
  ParseFloat (param r "lng") = (lng, None) ->
  strconv.Atoi (radius_or_default r) = (radius, None) ->
  (respond r).2 = [(queryStr, [Float64 lng; Float64 lat; Int64 radius])] /\
  http.status (respond r).1 <> http.StatusBadRequest.
Proof.
  intros Hlat Hlng Hplat Hplng Hrad. split.
  - by apply validated_queries.
  - rewrite (respond_present r Hlat Hlng).
    by destruct (getGeoJSONFromDatabase _ _ _) as [[payload [err|]] queries].
Qed.

Lemma param_absent (r : http.Request) (key : string) :
  http.URL_Query r !! key = None -> param r key = EmptyString.
Proof. intros Hk. unfold param, http.Values_Get. by rewrite Hk. Qed.

(** C7.  With lat and lng valid: a radius that is absent or empty gives
    the query the radius 10000; a radius that is present is accepted just
    when it is an integer numeral (an optional sign and decimal digits, in
    the range of int), and then the query gets the integer it denotes;
    any other radius is rejected with an error response and no query. *)
Theorem radius_default_and_integer (r : http.Request) (lat lng : float64) :
  param r "lat" <> EmptyString -> param r "lng" <> EmptyString ->
  ParseFloat (param r "lat") = (lat, None) ->
  ParseFloat (param r "lng") = (lng, None) ->
  let query n := [(queryStr, [Float64 lng; Float64 lat; Int64 n])] in
  let rejected :=
    http.status (respond r).1 = http.StatusInternalServerError /\ (respond r).2 = [] in
  (param r "radius" = EmptyString -> (respond r).2 = query 10000) /\
  (param r "radius" <> EmptyString ->
     match integer_numeral (param r "radius") with
     | Some n =>
         if (- 2 ^ 63 <=? n) && (n <? 2 ^ 63) then (respond r).2 = query n
         else rejected
     | None => rejected
     end).
Proof.
  intros Hlat Hlng Hplat Hplng query rejected.
  assert (forall n, strconv.Atoi (radius_or_default r) = (n, None) ->
            (respond r).2 = query n) as Hok.
  { intros n Hn. by apply validated_queries. }
  assert ((strconv.Atoi (radius_or_default r)).2 <> None -> rejected) as Hrej.
  { intros Hbad.
    destruct (respond_unparsed r Hlat Hlng) as (field & cause & _ & Hr); [auto|].
    unfold rejected. by rewrite Hr. }
  split.
  - intros Hrad. apply Hok. unfold radius_or_default. rewrite Hrad. reflexivity.
  - intros Hrad. unfold radius_or_default in Hok, Hrej.
    apply is_empty_false in Hrad. rewrite Hrad in Hok, Hrej.
    destruct (strconv.Atoi (param r "radius")) as [m [e|]] eqn:HA.
    + assert (rejected) as Hr by (by apply Hrej).
      destruct (integer_numeral (param r "radius")) as [n|] eqn:Hnum; [|done].
      destruct ((- 2 ^ 63 <=? n) && (n <? 2 ^ 63)) eqn:Hrange; [|done].
      apply andb_true_iff in Hrange as [Hlo%Z.leb_le Hhi%Z.ltb_lt].
      rewrite (Atoi_complete _ _ Hnum) in HA; [done|lia].
    + pose proof (Atoi_in_range _ _ HA) as Hrange.
      rewrite (Atoi_value _ _ HA).
      assert ((- 2 ^ 63 <=? m) && (m <? 2 ^ 63) = true) as ->.
      { apply andb_true_iff. split; [apply Z.leb_le|apply Z.ltb_lt]; lia. }
      by apply Hok.
Qed.

End PipelineFacts.

(** ** The statement *)
Section StatementFacts.

Context `{!PostGIS}.

#[local] Instance by_distance_km_total : Total by_distance_km.
Proof. intros a b. apply float8_le_total. Qed.

#[local] Instance by_distance_km_trans : Transitive by_distance_km.
Proof. intros a b c. apply float8_le_trans. Qed.

Lemma select_row_none table p1 p2 p3 :
  Forall (fun row => within p1 p2 p3 row = false) table ->
  select_row table p1 p2 p3 = [].
Proof.
  intros Hall. unfold select_row.
  assert (List.filter (within p1 p2 p3) table = []) as ->.
  { induction Hall as [|row rows Hrow _ IH]; simpl; [done|]. by rewrite Hrow. }
  reflexivity.
Qed.

Lemma select_features_rows table p1 p2 p3 :
  select_features table p1 p2 p3 = map feature (select_row table p1 p2 p3).
Proof. unfold select_features. by destruct (select_row table p1 p2 p3). Qed.

(** The rows of [select_row], by the clauses of the innermost SELECT *)
Lemma select_row_clauses (table : list record)
    (lng lat : float64) (radius : Z) :
  let rows := select_row table lng lat radius in
  (length rows <= 25)%nat /\
  Forall (fun row => In row.1 table /\ within lng lat radius row.1 = true /\
                     row.2 = distance_km lng lat row.1) rows /\
  StronglySorted (fun a b => float8_le a.2 b.2 = true) rows /\
  (forall r, In r table -> within lng lat radius r = true ->
     In (r, distance_km lng lat r) rows \/
     (length rows = 25%nat /\
      Forall (fun row => float8_le row.2 (distance_km lng lat r) = true) rows)).
Proof.
  cbn zeta. unfold select_row.
  set (cands := map _ (List.filter _ table)).
  set (sorted := merge_sort by_distance_km cands).
  assert (StronglySorted by_distance_km sorted) as Hsorted
    by (apply StronglySorted_merge_sort; apply _).
  rewrite <- (take_drop 25 sorted) in Hsorted.
  split; [|split; [|split]].
  - rewrite length_take. lia.
  - apply Forall_take. subst sorted. rewrite merge_sort_Permutation.
    subst cands. apply Forall_fmap, Forall_forall. intros r Hr.
    by apply list_elem_of_In, filter_In in Hr as [Hin Hw].
  - by apply StronglySorted_app_1_l in Hsorted.
  - intros r Hin Hw.
    assert ((r, distance_km lng lat r) ∈ take 25 sorted ++ drop 25 sorted) as Hmem.
    { rewrite take_drop. subst sorted. rewrite merge_sort_Permutation.
      subst cands. apply list_elem_of_fmap. exists r. split; [done|].
      apply list_elem_of_In, filter_In. done. }
    apply elem_of_app in Hmem as [Hl|Hr]; [left; by apply list_elem_of_In|right].
    split.
    + rewrite length_take. apply list_elem_of_lookup in Hr as [i Hi].
      apply lookup_lt_Some in Hi. rewrite length_drop in Hi. lia.
    + apply Forall_forall. intros row Hrow.
      exact (StronglySorted_app_1_elem_of _ _ _ _ _ Hsorted Hrow Hr).
Qed.

Context `{!Strconv} `{!Database}.

(** C4.  For a validated request the one query carries the longitude, the
    latitude and the radius of the request as [$1], [$2], [$3].  With these,
    the array the statement produces has one feature per row of the
    innermost SELECT, in the same order; each of these rows is a row of the
    table for which [ST_DWithin] holds of its geography, the point
    [ST_SetSRID(ST_MakePoint($1, $2), 4326)::geography] and the radius [$3],
    and carries [ST_Distance] of its geography and that point, divided by
    1000; the rows are in ascending (non-decreasing) order of that distance;
    there are at most 25 of them; and a row within the radius that is left
    out is no nearer than any row that is in. *)
Theorem features_within_sorted_capped (table : list record)
    (lng lat : float64) (radius : Z) :
  let point := to_geography (ST_SetSRID (ST_MakePoint lng lat) 4326) in
  let place row := ST_GEOGFromWKB (wkb_geometry row) in
  let km row := float8_div (ST_Distance (place row) point) 1000 in
  let rows := select_row table lng lat radius in
  (forall r, validated r lat lng radius ->
     (respond r).2 = [(queryStr, [Float64 lng; Float64 lat; Int64 radius])]) /\
  select_features table lng lat radius =
    map (fun row =>
           jsonb_build_object
             [("type", jsonb_text "Feature");
              ("geometry", ST_AsGeoJSON (wkb_geometry row.1));
              ("properties",
                jsonb_delete (jsonb_delete (to_jsonb row.1 row.2) "ogc_fid")
                  "wkb_geometry")]) rows /\
  (length rows <= 25)%nat /\
  Forall (fun row => In row.1 table /\
                     ST_DWithin (place row.1) point radius = true /\
                     row.2 = km row.1) rows /\
  StronglySorted (fun a b => float8_le a.2 b.2 = true) rows /\
  (forall row, In row table -> ST_DWithin (place row) point radius = true ->
     In (row, km row) rows \/
     (length rows = 25%nat /\
      Forall (fun other => float8_le other.2 (km row) = true) rows)).
Proof.
  cbn zeta. split; [intros r Hv; by apply validated_queries|].
  split; [apply select_features_rows|].
  exact (select_row_clauses table lng lat radius).
Qed.

(** C3.  A validated request whose query matches no row: the statement's
    aggregate is the empty array (not NULL), its text is [[]], and whether
    the scan delivers that text or reports [sql.ErrNoRows], the response is
    200 with the features value [[]]. *)
Theorem no_match_is_empty_array (table : list record) (r : http.Request)
    (lat lng : float64) (radius : Z) :
  validated r lat lng radius ->
  Forall (fun row => within lng lat radius row = false) table ->
  let args := [Float64 lng; Float64 lat; Int64 radius] in
  QueryRowScan queryStr args = inl (jsonb_array_out (select_features table lng lat radius)) \/
  QueryRowScan queryStr args = inr ErrNoRows ->
  select_features table lng lat radius = [] /\
  jsonb_array_out (select_features table lng lat radius) = "[]" /\
  http.status (respond r).1 = http.StatusOK /\
  http.body (respond r).1 = ok_body "[]".
Proof.
  intros (Hlat & Hlng & Hplat & Hplng & Hrad) Hnone args Hdb.
  assert (select_features table lng lat radius = []) as Hempty.
  { by rewrite select_features_rows, select_row_none. }
  rewrite Hempty in *. split; [done|]. split; [reflexivity|].
  rewrite (respond_present r Hlat Hlng).
  rewrite (getGeoJSON_parsed _ _ _ _ _ _ Hplat Hplng Hrad). cbn zeta.
  fold args. by destruct Hdb as [-> | ->].
Qed.

End StatementFacts.

(** ** Start-up *)
Section MainFacts.

Context `{!Strconv} `{!Database} `{!Process}.

(** C9.  When the ping of [initDB] fails, [main] ends with the line that
    gives the cause and with [os.Exit(1)]; its trace holds no handler
    registration and no listener start.  If the ping was reached, the cause
    logged is the ping's error. *)
Theorem unreachable_database_never_serves (cause : error) :
  db_Ping = Some cause ->
  exists tr reason,
    main = tr ++ [Log ("Failed to initialize database: " +:+ reason); Exit 1] /\
    Forall (fun ev => serves ev = false) main /\
    (In Ping tr -> reason = "db.Ping failed: " +:+ Error cause).
Proof.
  intros Hping. unfold main, initDB. rewrite Hping.
  destruct (negb _); [|destruct (is_empty (Getenv "DB_PASSWORD"))];
    destruct (sql_Open _ _) as [err|];
    eexists _, _; (split; [reflexivity|]);
    (split; [repeat constructor|]); cbn; intros Hin; try reflexivity;
    repeat (destruct Hin as [Hin|Hin]; [discriminate Hin|]); destruct Hin.
Qed.

End MainFacts.

(** ** More on the handler *)

(** *** Formats that open with plain text *)

Lemma prefix_append (p s : string) : String.prefix p (p +:+ s) = true.
Proof.
  induction p as [|c p IH]; [by destruct s|].
  change (String.prefix (String c p) (String c (p +:+ s)) = true).
  cbn [String.prefix]. destruct (ascii_dec c c); [exact IH|done].
Qed.

Lemma cut_append b pre s :
  has_byte b pre = false ->
  fmt.cut b (pre +:+ s) =
    match fmt.cut b s with
    | Some (text, rest) => Some (pre +:+ text, rest)
    | None => None
    end.
Proof.
  induction pre as [|c pre IH]; intros Hpre.
  - change (EmptyString +:+ s) with s. by destruct (fmt.cut b s) as [[text rest]|].
  - cbn [has_byte] in Hpre. apply orb_false_iff in Hpre as [Hc Hpre].
    change (String c pre +:+ s) with (String c (pre +:+ s)).
    cbn [fmt.cut]. rewrite Hc, (IH Hpre). by destruct (fmt.cut b s) as [[text rest]|].
Qed.

Lemma length_append (s t : string) :
  String.length (s +:+ t) = (String.length s + String.length t)%nat.
Proof.
  induction s as [|c s IH]; [done|].
  change (String c s +:+ t) with (String c (s +:+ t)). cbn [String.length]. by rewrite IH.
Qed.

(** Text without a percent sign in front of a format is copied as it is. *)
Lemma Sprintf0_append pre s :
  has_byte 37 pre = false -> fmt.Sprintf0 (pre +:+ s) = pre +:+ fmt.Sprintf0 s.
Proof.
  intros Hpre. unfold fmt.Sprintf0.
  rewrite (doPrintf_fuel _ (S (String.length (pre +:+ s))) s) by (rewrite ?length_append; lia).
  cbn [fmt.doPrintf]. rewrite (cut_append _ _ _ Hpre).
  destruct (fmt.cut 37 s) as [[text rest]|]; [|done].
  destruct (fmt.verb rest) as [out [rest'|]]; by rewrite append_assoc.
Qed.

(** A doubled percent sign is written as one. *)
Lemma Sprintf0_doubled_percent a b :
  has_byte 37 a = false -> has_byte 37 b = false ->
  fmt.Sprintf0 (a +:+ "%%" +:+ b) = a +:+ "%" +:+ b.
Proof.
  intros Ha Hb. rewrite (Sprintf0_append _ _ Ha). f_equal.
  unfold fmt.Sprintf0.
  change ("%%" +:+ b) with (String "%"%char (String "%"%char b)).
  cbn [fmt.doPrintf String.length].
  change (fmt.cut 37 (String "%"%char (String "%"%char b)))
    with (Some (EmptyString, String "%"%char b)).
  cbv iota beta.
  change (fmt.verb (String "%"%char b)) with ("%", Some b).
  cbv iota beta. rewrite (cut_no_byte _ _ Hb). reflexivity.
Qed.

Section HandlerExtras.

Context `{!Strconv} `{!Database}.

(** The response to a validated request, by the outcome of the scan. *)
Lemma respond_validated r lat lng radius :
  validated r lat lng radius ->
  let args := [Float64 lng; Float64 lat; Int64 radius] in
  respond r =
    (match QueryRowScan queryStr args with
     | inl payload => Fprintf prepared (ok_body payload)
     | inr err =>
         if is_ErrNoRows err then Fprintf prepared (ok_body "[]")
         else http.Error prepared
                (raw "{'status': 'error', 'error': 'Internal server error during query: "
                   +:+ Error (Errorf_w "error scanning row: " err) +:+ raw "'}")
                http.StatusInternalServerError
     end, [(queryStr, args)]).
Proof.
  intros (Hlat & Hlng & Hplat & Hplng & Hrad). cbn zeta.
  rewrite (respond_present r Hlat Hlng).
  rewrite (getGeoJSON_parsed _ _ _ _ _ _ Hplat Hplng Hrad). cbn zeta.
  destruct (QueryRowScan _ _) as [payload|err]; [done|]. by destruct (is_ErrNoRows err).
Qed.

(** Every request is of one of three kinds. *)
Lemma request_kinds r :
  (param r "lat" = EmptyString \/ param r "lng" = EmptyString) \/
  (param r "lat" <> EmptyString /\ param r "lng" <> EmptyString /\
   ((ParseFloat (param r "lat")).2 <> None \/
    (ParseFloat (param r "lng")).2 <> None \/
    (strconv.Atoi (radius_or_default r)).2 <> None)) \/
  (exists lat lng radius, validated r lat lng radius).
Proof.
  destruct (is_empty (param r "lat")) eqn:Hlat; [apply is_empty_true in Hlat; auto|].
  destruct (is_empty (param r "lng")) eqn:Hlng; [apply is_empty_true in Hlng; auto|].
  apply is_empty_false in Hlat, Hlng. right.
  destruct (ParseFloat (param r "lat")) as [lat [e1|]] eqn:H1; [left; cbn; auto|].
  destruct (ParseFloat (param r "lng")) as [lng [e2|]] eqn:H2; [left; cbn; auto|].
  destruct (strconv.Atoi (radius_or_default r)) as [radius [e3|]] eqn:H3; [left; cbn; auto|].
  right. exists lat, lng, radius. done.
Qed.

(** X1.  The status of a response is 200, 400 or 500; it is 400 exactly
    when lat or lng is missing (absent or empty); and a 200 is never sent
    without a query having been made. *)
Theorem status_code_of_a_response (r : http.Request) :
  In (http.status (respond r).1)
     [http.StatusOK; http.StatusBadRequest; http.StatusInternalServerError] /\
  (http.status (respond r).1 = http.StatusBadRequest <->
   param r "lat" = EmptyString \/ param r "lng" = EmptyString) /\
  (http.status (respond r).1 = http.StatusOK -> (respond r).2 <> []).
Proof.
  destruct (request_kinds r) as [Hm|[(Hlat & Hlng & Hbad)|(lat & lng & radius & Hv)]].
  - rewrite (respond_missing r Hm). cbn. split; [auto|]. split; [done|discriminate].
  - destruct (respond_unparsed r Hlat Hlng Hbad) as (field & cause & _ & ->).
    cbn. split; [auto|]. split; [|discriminate].
    split; [discriminate|]. by intros [?|?].
  - pose proof Hv as (Hlat & Hlng & _). rewrite (respond_validated r _ _ _ Hv). cbn zeta.
    assert (forall w : http.ResponseWriter,
              http.status w = http.StatusOK \/ http.status w = http.StatusInternalServerError ->
              In (http.status w)
                 [http.StatusOK; http.StatusBadRequest; http.StatusInternalServerError] /\
              (http.status w = http.StatusBadRequest <->
               param r "lat" = EmptyString \/ param r "lng" = EmptyString)) as Hw.
    { intros w [Hs|Hs]; rewrite Hs; (split; [cbn; auto|]);
        (split; [discriminate|by intros [?|?]]). }
    cbn [fst snd].
    destruct (QueryRowScan _ _) as [payload|err]; [|destruct (is_ErrNoRows err)];
      (split; [apply Hw; cbn; auto|split; [apply Hw; cbn; auto|discriminate]]).
Qed.

(** X2.  A request makes no query or exactly one; the one query is made
    only for a validated request, with the fixed text and that request's
    values. *)
Theorem at_most_one_query_and_only_when_validated (r : http.Request) :
  (respond r).2 = [] \/
  exists lat lng radius,
    validated r lat lng radius /\
    (respond r).2 = [(queryStr, [Float64 lng; Float64 lat; Int64 radius])].
Proof.
  destruct (request_kinds r) as [Hm|[(Hlat & Hlng & Hbad)|(lat & lng & radius & Hv)]].
  - left. by rewrite (respond_missing r Hm).
  - left. by destruct (respond_unparsed r Hlat Hlng Hbad) as (field & cause & _ & ->).
  - right. exists lat, lng, radius. split; [done|]. by apply validated_queries.
Qed.

(** X3.  The strings are checked in the order lat, lng, radius, and the
    first that does not parse is the one the 500 body reports, whatever the
    later ones are. *)
Theorem first_parse_failure_is_reported (r : http.Request) :
  param r "lat" <> EmptyString -> param r "lng" <> EmptyString ->
  let reported field cause :=
    http.body (respond r).1 = error_body ("invalid " +:+ field +:+ ": " +:+ Error cause) in
  (forall v e, ParseFloat (param r "lat") = (v, Some e) -> reported "latitude" e) /\
  (forall lat v e,
     ParseFloat (param r "lat") = (lat, None) ->
     ParseFloat (param r "lng") = (v, Some e) -> reported "longitude" e) /\
  (forall lat lng v e,
     ParseFloat (param r "lat") = (lat, None) ->
     ParseFloat (param r "lng") = (lng, None) ->
     strconv.Atoi (radius_or_default r) = (v, Some e) -> reported "radius" e).
Proof.
  intros Hlat Hlng reported. subst reported. cbn beta.
  rewrite (respond_present r Hlat Hlng). unfold getGeoJSONFromDatabase.
  split; [|split].
  - intros v e ->. reflexivity.
  - intros lat v e -> ->. reflexivity.
  - intros lat lng v e -> -> ->. reflexivity.
Qed.

(** X4.  When the scan of a validated request fails with an error other
    than the sentinel [sql.ErrNoRows], the response is 500, the body is the
    error envelope with "error scanning row: " and the error's message, and
    the one query was made. *)
Theorem scan_failure_is_server_error (r : http.Request) (lat lng : float64)
    (radius : Z) (err : error) :
  validated r lat lng radius ->
  QueryRowScan queryStr [Float64 lng; Float64 lat; Int64 radius] = inr err ->
  is_ErrNoRows err = false ->
  http.status (respond r).1 = http.StatusInternalServerError /\
  http.body (respond r).1 = error_body ("error scanning row: " +:+ Error err) /\
  (respond r).2 = [(queryStr, [Float64 lng; Float64 lat; Int64 radius])].
Proof.
  intros Hv Hdb Hno. rewrite (respond_validated r _ _ _ Hv). cbn zeta.
  rewrite Hdb, Hno. done.
Qed.

(** X5.  The response and the query depend on the request only through
    the first value of lat, the first value of lng and the radius string with
    its default: other parameters, further values of a key, and the choice
    between no radius and radius=10000 make no difference. *)
Theorem response_depends_on_three_strings (r1 r2 : http.Request) :
  param r1 "lat" = param r2 "lat" -> param r1 "lng" = param r2 "lng" ->
  radius_or_default r1 = radius_or_default r2 ->
  respond r1 = respond r2.
Proof.
  intros Hlat Hlng Hrad. unfold respond, apiSearchHandler.
  fold (param r1 "lat") (param r1 "lng") (param r1 "radius").
  fold (param r2 "lat") (param r2 "lng") (param r2 "radius").
  fold (radius_or_default r1) (radius_or_default r2).
  by rewrite Hlat, Hlng, Hrad.
Qed.

(** X6.  Whatever the payload or the error message holds, a 200 body
    opens with the status field ok and the key of the features, a 500 body
    opens with the status field error and the key of the error with the
    words Internal server error during query, and any other body is the
    fixed missing-parameter body. *)
Theorem body_opens_with_its_envelope (r : http.Request) :
  let w := (respond r).1 in
  if http.status w =? http.StatusOK then
    String.prefix (raw "{'status': 'ok', 'features': ") (http.body w) = true
  else if http.status w =? http.StatusInternalServerError then
    String.prefix (raw "{'status': 'error', 'error': 'Internal server error during query: ")
      (http.body w) = true
  else http.body w = missing_body.
Proof.
  cbn zeta.
  assert (forall format,
            String.prefix (raw "{'status': 'ok', 'features': ")
              (http.body (Fprintf prepared
                 (raw "{'status': 'ok', 'features': " +:+ format))) = true) as Hok.
  { intros format. change (http.body (Fprintf prepared ?f)) with (fmt.Sprintf0 f).
    rewrite Sprintf0_append by reflexivity. apply prefix_append. }
  assert (forall msg,
            String.prefix (raw "{'status': 'error', 'error': 'Internal server error during query: ")
              (http.body (http.Error prepared
                 (raw "{'status': 'error', 'error': 'Internal server error during query: "
                    +:+ msg) http.StatusInternalServerError)) = true) as Herr.
  { intros msg.
    change (http.body (http.Error prepared ?m _)) with (m +:+ http.newline).
    rewrite append_assoc. apply prefix_append. }
  destruct (request_kinds r) as [Hm|[(Hlat & Hlng & Hbad)|(lat & lng & radius & Hv)]].
  - by rewrite (respond_missing r Hm).
  - destruct (respond_unparsed r Hlat Hlng Hbad) as (field & cause & _ & ->). apply Herr.
  - rewrite (respond_validated r _ _ _ Hv). cbn zeta. cbn [fst].
    destruct (QueryRowScan _ _) as [payload|err]; [apply Hok|].
    destruct (is_ErrNoRows err); [apply Hok|apply Herr].
Qed.

(** X7.  The payload goes through [Fprintf] as a format: where the
    database delivers a doubled percent sign between texts without one, the
    body holds a single percent sign. *)
Theorem doubled_percent_in_payload_is_halved (r : http.Request) (lat lng : float64)
    (radius : Z) (a b : string) :
  validated r lat lng radius ->
  has_byte 37 a = false -> has_byte 37 b = false ->
  QueryRowScan queryStr [Float64 lng; Float64 lat; Int64 radius] = inl (a +:+ "%%" +:+ b) ->
  http.status (respond r).1 = http.StatusOK /\
  http.body (respond r).1 = ok_body (a +:+ "%" +:+ b).
Proof.
  intros Hv Ha Hb Hdb. rewrite (respond_validated r _ _ _ Hv). cbn zeta. rewrite Hdb.
  split; [reflexivity|].
  change (fmt.Sprintf0 (ok_body (a +:+ "%%" +:+ b)) = ok_body (a +:+ "%" +:+ b)).
  unfold ok_body. rewrite Sprintf0_append by reflexivity. f_equal.
  rewrite !append_assoc.
  rewrite (Sprintf0_doubled_percent a (b +:+ "}")); [done|done|].
  rewrite has_byte_app, Hb. reflexivity.
Qed.

(** X8.  The handler writes the status line in every response, and only
    after it has set its last header, so none of its headers is lost.  The
    header map it hands over with the status line holds, on a 200, just the
    allow-all origin header and the JSON content type, and on any other
    response just the allow-all origin header, the plain-text content type
    and nosniff.  (The server adds headers of its own, such as Date and
    Content-Length: they are outside this map.) *)
Theorem headers_of_a_response (r : http.Request) :
  let w := (respond r).1 in
  http.wroteHeader w = true /\
  http.sentHeader w = http.header w /\
  http.sentHeader w =
    if http.status w =? http.StatusOK then
      <["Access-Control-Allow-Origin" := ["*"]]>
        (<["Content-Type" := ["application/json"]]> ∅)
    else
      <["Access-Control-Allow-Origin" := ["*"]]>
        (<["Content-Type" := ["text/plain; charset=utf-8"]]>
           (<["X-Content-Type-Options" := ["nosniff"]]> ∅)).
Proof.
  cbn zeta.
  destruct (request_kinds r) as [Hm|[(Hlat & Hlng & Hbad)|(lat & lng & radius & Hv)]].
  - rewrite (respond_missing r Hm). repeat split.
  - destruct (respond_unparsed r Hlat Hlng Hbad) as (field & cause & _ & ->). repeat split.
  - rewrite (respond_validated r _ _ _ Hv). cbn zeta.
    destruct (QueryRowScan _ _) as [payload|err]; [|destruct (is_ErrNoRows err)];
      repeat split.
Qed.

End HandlerExtras.

(** ** More on the statement *)
Section StatementExtras.

Context `{!PostGIS}.

(** X9.  The array has as many features as rows pass WHERE, up to 25. *)
Theorem feature_count (table : list record) (lng lat : float64) (radius : Z) :
  length (select_features table lng lat radius) =
    Nat.min 25 (length (List.filter (within lng lat radius) table)).
Proof.
  rewrite select_features_rows, length_map. unfold select_row.
  rewrite length_take, merge_sort_Permutation, length_map. done.
Qed.

(** X10.  When at most 25 rows pass WHERE, the rows of the result are
    just these rows, each once, with its distance: LIMIT drops nothing. *)
Theorem all_matches_returned_up_to_the_cap (table : list record)
    (lng lat : float64) (radius : Z) :
  (length (List.filter (within lng lat radius) table) <= 25)%nat ->
  select_row table lng lat radius ≡ₚ
    map (fun r => (r, distance_km lng lat r)) (List.filter (within lng lat radius) table).
Proof.
  intros Hlen. unfold select_row.
  rewrite take_ge; [apply merge_sort_Permutation|].
  by rewrite merge_sort_Permutation, length_map.
Qed.

(** X11.  Rows that do not pass WHERE have no influence: with or without
    them in the table, the array is the same. *)
Theorem rows_outside_the_radius_do_not_matter (before far after : list record)
    (lng lat : float64) (radius : Z) :
  Forall (fun row => within lng lat radius row = false) far ->
  select_features (before ++ far ++ after) lng lat radius =
    select_features (before ++ after) lng lat radius.
Proof.
  intros Hfar. unfold select_features, select_row.
  rewrite !List.filter_app.
  assert (List.filter (within lng lat radius) far = []) as ->; [|done].
  induction Hfar as [|row rows Hrow _ IH]; simpl; [done|]. by rewrite Hrow.
Qed.

End StatementExtras.


(** ** More on start-up *)
Section MainExtras.

Context `{!Strconv} `{!Database} `{!Process}.

(** The trace of [initDB]: an optional warning, one [sql.Open], then the
    pool settings and the ping if the open succeeded, then the success line
    if the ping did; and the error it returns. *)
Lemma initDB_shape :
  exists warn dsn,
    (warn = [] \/
     warn = [Log "WARNING: DB_PASSWORD environment variable not set. Assuming unsecure local connection."]) /\
    (initDB).2 =
      warn ++ [SqlOpen "postgres" dsn] ++
      match sql_Open "postgres" dsn with
      | Some _ => []
      | None =>
          [SetMaxIdleConns 5; SetMaxOpenConns 7; SetConnMaxLifetime 1800; Ping] ++
          match db_Ping with
          | Some _ => []
          | None => [Log ("Successfully connected to database: " +:+
                          (if is_empty (Getenv "DB_NAME") then "recycling_db"
                           else Getenv "DB_NAME"))]
          end
      end /\
    (initDB).1 =
      match sql_Open "postgres" dsn with
      | Some err => Some (Errorf_w "sql.Open failed: " err)
      | None =>
          match db_Ping with
          | Some err => Some (Errorf_w "db.Ping failed: " err)
          | None => None
          end
      end.
Proof.
  unfold initDB.
  destruct (negb _); [|destruct (is_empty (Getenv "DB_PASSWORD"))]; cbv iota beta;
    [ match goal with |- context [sql_Open "postgres" ?d] => exists [], d end
    | match goal with |- context [sql_Open "postgres" ?d] =>
        exists [Log "WARNING: DB_PASSWORD environment variable not set. Assuming unsecure local connection."], d
      end
    | match goal with |- context [sql_Open "postgres" ?d] => exists [], d end ];
    (split; [auto|]);
    destruct (sql_Open _ _) as [e|]; try destruct db_Ping as [e'|]; split; reflexivity.
Qed.


(** [main] after [initDB] *)
Lemma main_shape :
  main =
    (initDB).2 ++
    match (initDB).1 with
    | Some err => [Log ("Failed to initialize database: " +:+ Error err); Exit 1]
    | None =>
        let port := if is_empty (Getenv "PORT") then "8080" else Getenv "PORT" in
        [Handle "/" (FileServer "static");
         Handle "/api/search" (HandlerFunc apiSearchHandler);
         Log ("Store Locator Backend (Go) listening on port " +:+ port);
         ListenAndServe (":" +:+ port)] ++
        match http_ListenAndServe (":" +:+ port) with
        | Some err => [Log (Error err); Exit 1]
        | None => []
        end
    end.
Proof.
  unfold main. destruct initDB as [[err|] tr]; cbn [fst snd]; [done|]. cbn zeta.
  destruct (http_ListenAndServe _); by rewrite <- ?app_assoc, ?app_nil_r.
Qed.

(** A list splits in one way only around its one element with [P]. *)
Lemma unique_split {X : Type} (P : X -> bool) (A B pre post : list X) (a x : X) :
  forallb (fun y => negb (P y)) A = true -> forallb (fun y => negb (P y)) B = true ->
  P x = true -> A ++ a :: B = pre ++ x :: post ->
  pre = A /\ x = a /\ post = B.
Proof.
  intros HA HB Hx. revert pre. induction A as [|h A IH]; intros pre Heq.
  - destruct pre as [|p pre]; [by injection Heq as -> ->|].
    injection Heq as -> ->. rewrite forallb_app in HB. cbn in HB. rewrite Hx in HB.
    by rewrite andb_false_r in HB.
  - cbn in HA. apply andb_true_iff in HA as [Hh HA].
    destruct pre as [|p pre].
    + injection Heq as -> _. by rewrite Hx in Hh.
    + injection Heq as -> Heq. destruct (IH HA pre Heq) as (-> & -> & ->). done.
Qed.

(** X12.  [main] registers a handler or starts the listener exactly when
    the one [sql.Open] it makes and the ping both succeed. *)
Theorem main_serves_iff_database_answers :
  Exists (fun ev => serves ev = true) main <->
  exists dsn,
    In (SqlOpen "postgres" dsn) main /\ sql_Open "postgres" dsn = None /\ db_Ping = None.
Proof.
  rewrite main_shape.
  destruct initDB_shape as (warn & dsn & Hwarn & -> & ->).
  rewrite Exists_exists. setoid_rewrite list_elem_of_In.
  split.
  - intros (ev & Hin & Hs). exists dsn.
    destruct (sql_Open "postgres" dsn) as [e|] eqn:Hopen;
      [|destruct db_Ping as [e|] eqn:Hping].
    + exfalso. rewrite !in_app_iff in Hin. cbn in Hin.
      destruct Hwarn as [-> | ->]; cbn in Hin; intuition (subst; discriminate).
    + exfalso. rewrite !in_app_iff in Hin. cbn in Hin.
      destruct Hwarn as [-> | ->]; cbn in Hin; intuition (subst; discriminate).
    + split; [|done]. rewrite !in_app_iff. cbn. auto.
  - intros (dsn' & Hin & Hopen & Hping).
    assert (dsn' = dsn) as ->.
    { rewrite !in_app_iff in Hin. cbn in Hin.
      destruct (sql_Open "postgres" dsn), db_Ping;
        try match type of Hin with
            | context [http_ListenAndServe ?a] => destruct (http_ListenAndServe a)
            end;
        destruct Hwarn as [-> | ->]; cbn in Hin; intuition (try discriminate; congruence). }
    rewrite Hopen, Hping. exists (Handle "/" (FileServer "static")).
    split; [|reflexivity]. rewrite !in_app_iff. cbn. tauto.
Qed.

(** X13.  Wherever the listener starts in the trace of [main]: its
    address is a colon and PORT, or 8080 when PORT is empty; the ping and the
    registration of both routes come before it; it starts only once; and
    what follows is nothing while it serves, or the line with its error and
    [os.Exit(1)]. *)
Theorem listener_starts_once_after_both_routes (pre post : list event) (addr : string) :
  main = pre ++ ListenAndServe addr :: post ->
  addr = ":" +:+ (if is_empty (Getenv "PORT") then "8080" else Getenv "PORT") /\
  In Ping pre /\
  In (Handle "/" (FileServer "static")) pre /\
  In (Handle "/api/search" (HandlerFunc apiSearchHandler)) pre /\
  Forall (fun ev => is_listen ev = false) (pre ++ post) /\
  post = match http_ListenAndServe addr with
         | Some err => [Log (Error err); Exit 1]
         | None => []
         end.
Proof.
  rewrite main_shape.
  destruct initDB_shape as (warn & dsn & Hwarn & -> & ->).
  set (port := if is_empty (Getenv "PORT") then "8080" else Getenv "PORT").
  intros Heq.
  assert (forall l, (exists w, l = [] \/ l = [Log w]) ->
            forallb (fun y => negb (is_listen y)) l = true) as Hlog.
  { intros l [w [-> | ->]]; reflexivity. }
  destruct (sql_Open "postgres" dsn) as [e|]; [|destruct db_Ping as [e|]].
  - exfalso. assert (In (ListenAndServe addr) (pre ++ ListenAndServe addr :: post)) as Hin
      by (apply in_app_iff; cbn; auto).
    rewrite <- Heq, !in_app_iff in Hin. cbn in Hin.
    destruct Hwarn as [-> | ->]; cbn in Hin; intuition discriminate.
  - exfalso. assert (In (ListenAndServe addr) (pre ++ ListenAndServe addr :: post)) as Hin
      by (apply in_app_iff; cbn; auto).
    rewrite <- Heq, !in_app_iff in Hin. cbn in Hin.
    destruct Hwarn as [-> | ->]; cbn in Hin; intuition discriminate.
  - cbn zeta in Heq. fold port in Heq.
    set (A := (warn ++ [SqlOpen "postgres" dsn] ++
               [SetMaxIdleConns 5; SetMaxOpenConns 7; SetConnMaxLifetime 1800; Ping] ++
               [Log ("Successfully connected to database: " +:+
                     (if is_empty (Getenv "DB_NAME") then "recycling_db" else Getenv "DB_NAME"))]) ++
              [Handle "/" (FileServer "static");
               Handle "/api/search" (HandlerFunc apiSearchHandler);
               Log ("Store Locator Backend (Go) listening on port " +:+ port)]).
    set (B := match http_ListenAndServe (":" +:+ port) with
              | Some err => [Log (Error err); Exit 1]
              | None => []
              end).
    assert (A ++ ListenAndServe (":" +:+ port) :: B = pre ++ ListenAndServe addr :: post) as Hsplit.
    { rewrite <- Heq. subst A B. by rewrite <- !app_assoc. }
    apply (unique_split is_listen) in Hsplit as (-> & [= ->] & ->); [| | |done].
    + split; [done|]. subst A.
      split; [rewrite !in_app_iff; cbn; tauto|].
      split; [rewrite !in_app_iff; cbn; tauto|].
      split; [rewrite !in_app_iff; cbn; tauto|].
      split; [|done].
      apply Forall_forall. intros ev Hev%list_elem_of_In.
      rewrite !in_app_iff in Hev. subst B. cbn in Hev.
      destruct (http_ListenAndServe _), Hwarn as [-> | ->]; cbn in Hev;
        intuition (subst; reflexivity).
    + subst A. rewrite !forallb_app. destruct Hwarn as [-> | ->]; reflexivity.
    + subst B. by destruct (http_ListenAndServe _).
Qed.

(** X14.  [initDB] logs the password warning exactly when neither
    INSTANCE_CONNECTION_NAME nor DB_PASSWORD is set. *)
Theorem password_warning_iff_local_without_password :
  In (Log "WARNING: DB_PASSWORD environment variable not set. Assuming unsecure local connection.")
     (initDB).2 <->
  Getenv "INSTANCE_CONNECTION_NAME" = EmptyString /\ Getenv "DB_PASSWORD" = EmptyString.
Proof.
  unfold initDB. rewrite <- !is_empty_true.
  destruct (is_empty (Getenv "INSTANCE_CONNECTION_NAME")),
    (is_empty (Getenv "DB_PASSWORD")); cbn [negb]; cbv iota beta;
    destruct (sql_Open _ _), db_Ping; cbn [snd]; rewrite ?in_app_iff; cbn [In];
    split; try tauto; try (intros [? ?]; discriminate);
    intros Hin; exfalso; intuition (try discriminate).
Qed.

End MainExtras.

(** ** Worked examples *)

#[local] Existing Instance Sample.sample_strconv.

(** The statement evaluated on five points of the line, centre 0, radius
    100: the far point is left out, the others come nearest first. *)
Example select_row_on_the_line :
  map (fun row => fst (fst row))
    (select_row (H := Sample.line_world)
       [("a", 50); ("b", 10); ("c", 2000); ("d", -30); ("e", 0)]
       (Sample.of_Z 0) (Sample.of_Z 0) 100)
  = ["e"; "b"; "d"; "a"].
Proof. vm_compute. reflexivity. Qed.

(** With the database answering, [main] registers both handlers and starts
    the listener on the port of the environment. *)
Example reachable_database_serves :
  map serves (main (H1 := Sample.reachable) (H0 := Sample.answers (inl "[]")))
  = [false; false; false; false; false; false; true; true; false; true] /\
  last (main (H1 := Sample.reachable) (H0 := Sample.answers (inl "[]")))
  = Some (ListenAndServe ":9000").
Proof. split; reflexivity. Qed.

(** C1, counterexample.  lat=30.27, lng=-97.74, radius=abc: the radius is
    present and is no number, and the status is 500, not 400. *)
Lemma non_numeric_radius_is_not_400 :
  let params := [("lat", "30.27"); ("lng", "-97.74"); ("radius", "abc")] in
  let db := Sample.answers (inl "[]") in
  param (Sample.request params) "radius" = "abc" /\
  (strconv.Atoi "abc").2 = Some (NumError "Atoi" "abc" ErrSyntax) /\
  http.status (Sample.serve db params).1 = http.StatusInternalServerError /\
  http.status (Sample.serve db params).1 <> http.StatusBadRequest.
Proof. repeat split. discriminate. Qed.

(** C1 (amended), witness: the same request; the radius is the string
    that is reported, with the error of [strconv.Atoi]. *)
Lemma parse_failure_is_server_error_witness :
  let params := [("lat", "30.27"); ("lng", "-97.74"); ("radius", "abc")] in
  let db := Sample.answers (inl "[]") in
  http.status (Sample.serve db params).1 = http.StatusInternalServerError /\
  (Sample.serve db params).2 = [] /\
  exists field cause,
    ((field = "latitude" /\
      (ParseFloat (param (Sample.request params) "lat")).2 = Some cause) \/
     (field = "longitude" /\
      (ParseFloat (param (Sample.request params) "lat")).2 = None /\
      (ParseFloat (param (Sample.request params) "lng")).2 = Some cause) \/
     (field = "radius" /\
      (ParseFloat (param (Sample.request params) "lat")).2 = None /\
      (ParseFloat (param (Sample.request params) "lng")).2 = None /\
      (strconv.Atoi (radius_or_default (Sample.request params))).2 = Some cause)) /\
    http.body (Sample.serve db params).1 =
      error_body ("invalid " +:+ field +:+ ": " +:+ Error cause).
Proof.
  apply (parse_failure_is_server_error (H := Sample.sample_strconv)
           (H0 := Sample.answers (inl "[]"))
           (Sample.request [("lat", "30.27"); ("lng", "-97.74"); ("radius", "abc")])).
  - discriminate.
  - discriminate.
  - right. right. discriminate.
Defined.



(** The payload is used as a format: a percent sign in it is taken for a
    verb, here [% r] with no operand. *)
Example percent_in_payload_is_rewritten :
  http.body (Sample.serve (Sample.answers (inl (raw "[{'note': '100% recycled'}]")))
               [("lat", "30.27"); ("lng", "-97.74")]).1
  = raw "{'status': 'ok', 'features': [{'note': '100%!r(MISSING)ecycled'}]}".
Proof. vm_compute. reflexivity. Qed.

(** C3, witness: one point far from the centre on the line, default
    radius. *)
Lemma no_match_is_empty_array_witness :
  let params := [("lat", "0"); ("lng", "0")] in
  let db := Sample.answers (inl "[]") in
  http.status (Sample.serve db params).1 = http.StatusOK /\
  http.body (Sample.serve db params).1 = ok_body "[]".
Proof.
  refine (proj2 (proj2 (no_match_is_empty_array (H := Sample.line_world)
           (H0 := Sample.sample_strconv) (H1 := Sample.answers (inl "[]"))
           [("far", 50000)] (Sample.request [("lat", "0"); ("lng", "0")])
           (S754_zero false) (S754_zero false) 10000 _ _ _))).
  - repeat split; discriminate.
  - repeat constructor.
  - left. reflexivity.
Defined.

(** C5.  lng=-97.74 and no lat: the 400 response carries the allow-all
    origin header, but its content type is plain text, not JSON. *)
Theorem error_response_content_type_is_plain_text :
  let w := (Sample.serve (Sample.answers (inl "[]")) [("lng", "-97.74")]).1 in
  http.status w = http.StatusBadRequest /\
  http.Header_Get (http.sentHeader w) "Access-Control-Allow-Origin" = "*" /\
  http.Header_Get (http.sentHeader w) "Content-Type" = "text/plain; charset=utf-8" /\
  http.Header_Get (http.sentHeader w) "Content-Type" <> "application/json".
Proof. repeat split. discriminate. Qed.

(** C6, witness: Austin with the default radius, and a second request. *)
Lemma query_text_is_fixed_witness :
  let db := Sample.answers (inl "[]") in
  let q1 := (Sample.serve db [("lat", "30.27"); ("lng", "-97.74")]).2 in
  let q2 := (Sample.serve db [("lat", "999"); ("lng", "0"); ("radius", "250")]).2 in
  q1 = [(queryStr, [Float64 (Sample.decimal (-9774) 2); Float64 (Sample.decimal 3027 2);
                    Int64 10000])] /\
  q2 = [(queryStr, [Float64 (S754_zero false); Float64 (Sample.decimal 999 0); Int64 250])] /\
  map fst q1 = map fst q2.
Proof.
  apply (query_text_is_fixed (H := Sample.sample_strconv)
           (H0 := Sample.answers (inl "[]"))
           (Sample.request [("lat", "30.27"); ("lng", "-97.74")])
           (Sample.request [("lat", "999"); ("lng", "0"); ("radius", "250")])).
  - repeat split; discriminate.
  - repeat split; discriminate.
Defined.

(** C7, witness: no radius gives 10000; radius=10.5 is rejected. *)
Lemma radius_default_and_integer_witness :
  let db := Sample.answers (inl "[]") in
  (Sample.serve db [("lat", "30.27"); ("lng", "-97.74")]).2 =
    [(queryStr, [Float64 (Sample.decimal (-9774) 2); Float64 (Sample.decimal 3027 2);
                 Int64 10000])] /\
  (http.status (Sample.serve db [("lat", "30.27"); ("lng", "-97.74"); ("radius", "10.5")]).1
     = http.StatusInternalServerError /\
   (Sample.serve db [("lat", "30.27"); ("lng", "-97.74"); ("radius", "10.5")]).2 = []).
Proof.
  split.
  - refine (proj1 (radius_default_and_integer (H := Sample.sample_strconv)
           (H0 := Sample.answers (inl "[]"))
             (Sample.request [("lat", "30.27"); ("lng", "-97.74")])
             (Sample.decimal 3027 2) (Sample.decimal (-9774) 2) _ _ _ _) _);
      first [discriminate | reflexivity].
  - refine (proj2 (radius_default_and_integer (H := Sample.sample_strconv)
           (H0 := Sample.answers (inl "[]"))
             (Sample.request [("lat", "30.27"); ("lng", "-97.74"); ("radius", "10.5")])
             (Sample.decimal 3027 2) (Sample.decimal (-9774) 2) _ _ _ _) _);
      first [discriminate | reflexivity].
Defined.

(** C4, witness: five points of the line, the request lat=0, lng=0,
    radius=100. *)
Lemma features_within_sorted_capped_witness :
  let table := [("a", 50); ("b", 10); ("c", 2000); ("d", -30); ("e", 0)] in
  let rows := select_row (H := Sample.line_world) table
                (S754_zero false) (S754_zero false) 100 in
  (Sample.serve (Sample.answers (inl "[e, b, d, a]"))
     [("lat", "0"); ("lng", "0"); ("radius", "100")]).2
  = [(queryStr, [Float64 (S754_zero false); Float64 (S754_zero false); Int64 100])] /\
  (length rows <= 25)%nat /\
  StronglySorted (fun a b => float8_le a.2 b.2 = true) rows.
Proof.
  pose proof (features_within_sorted_capped (H := Sample.line_world)
                (H0 := Sample.sample_strconv)
                (H1 := Sample.answers (inl "[e, b, d, a]"))
                [("a", 50); ("b", 10); ("c", 2000); ("d", -30); ("e", 0)]
                (S754_zero false) (S754_zero false) 100)
    as (Hquery & _ & Hlen & _ & Hsorted & _).
  split; [|exact (conj Hlen Hsorted)].
  apply (Hquery (Sample.request [("lat", "0"); ("lng", "0"); ("radius", "100")])).
  repeat split; discriminate.
Defined.

(** C8, counterexample.  One request lacks lat only, another lacks lng
    only: the two bodies are the same, so nothing read off the body tells
    which parameter is the missing one. *)
Lemma missing_message_does_not_tell_the_offender :
  let db := Sample.answers (inl "[]") in
  let no_lat := Sample.request [("lng", "-97.74"); ("radius", "250")] in
  let no_lng := Sample.request [("lat", "30.27")] in
  (param no_lat "lat" = EmptyString /\ param no_lat "lng" <> EmptyString) /\
  (param no_lng "lng" = EmptyString /\ param no_lng "lat" <> EmptyString) /\
  http.body (respond (H0 := db) no_lat).1 = http.body (respond (H0 := db) no_lng).1 /\
  ~ exists offender : string -> string,
      offender (http.body (respond (H0 := db) no_lat).1) = "lat" /\
      offender (http.body (respond (H0 := db) no_lng).1) = "lng".
Proof.
  cbn zeta. split; [split; [reflexivity|discriminate]|].
  split; [split; [reflexivity|discriminate]|].
  split; [reflexivity|].
  intros (offender & Hlat & Hlng).
  change (offender missing_body = "lat") in Hlat.
  change (offender missing_body = "lng") in Hlng.
  rewrite Hlat in Hlng. discriminate.
Qed.

(** C8 (amended), witness: no lat, and a radius that is no number. *)
Lemma missing_parameter_is_bad_request_witness :
  let params := [("lng", "-97.74"); ("radius", "abc")] in
  let db := Sample.answers (inl "[]") in
  http.status (Sample.serve db params).1 = http.StatusBadRequest /\
  (Sample.serve db params).2 = [].
Proof.
  pose proof (missing_parameter_is_bad_request (H := Sample.sample_strconv)
                (H0 := Sample.answers (inl "[]"))
                (Sample.request [("lng", "-97.74"); ("radius", "abc")])
                (or_introl eq_refl)) as (Hs & _ & _ & _ & _ & Hq).
  exact (conj Hs Hq).
Defined.

(** C9, witness: no environment variable set, and a database that refuses
    the connection. *)
Lemma unreachable_database_never_serves_witness :
  exists tr reason,
    main (H1 := Sample.unreachable) (H := Sample.sample_strconv)
         (H0 := Sample.answers (inl "[]"))
      = tr ++ [Log ("Failed to initialize database: " +:+ reason); Exit 1] /\
    Forall (fun ev => serves ev = false)
      (main (H1 := Sample.unreachable) (H := Sample.sample_strconv)
            (H0 := Sample.answers (inl "[]"))) /\
    (In Ping tr -> reason =
       "db.Ping failed: dial tcp 127.0.0.1:5432: connect: connection refused").
Proof.
  exact (unreachable_database_never_serves (H1 := Sample.unreachable)
           (errorString "dial tcp 127.0.0.1:5432: connect: connection refused") eq_refl).
Defined.

(** C10, witness: lat=NaN, lng=Inf, radius=-5. *)
Lemma no_range_checks_witness :
  let params := [("lat", "NaN"); ("lng", "Inf"); ("radius", "-5")] in
  let db := Sample.answers (inl "[]") in
  (Sample.serve db params).2 =
    [(queryStr, [Float64 (S754_infinity false); Float64 S754_nan; Int64 (-5)])] /\
  http.status (Sample.serve db params).1 <> http.StatusBadRequest.
Proof.
  apply (no_range_checks (H := Sample.sample_strconv)
           (H0 := Sample.answers (inl "[]"))
           (Sample.request [("lat", "NaN"); ("lng", "Inf"); ("radius", "-5")]));
    first [discriminate | reflexivity].
Defined.

(** ** Worked examples, continued *)

(** X3, witness: none of the three strings is a number; the latitude is
    reported. *)
Lemma first_parse_failure_is_reported_witness :
  http.body (Sample.serve (Sample.answers (inl "[]"))
               [("lat", "abc"); ("lng", "xyz"); ("radius", "1.5")]).1
  = error_body ("invalid latitude: " +:+ Error (NumError "ParseFloat" "abc" ErrSyntax)).
Proof.
  refine (proj1 (first_parse_failure_is_reported (H := Sample.sample_strconv)
           (H0 := Sample.answers (inl "[]"))
           (Sample.request [("lat", "abc"); ("lng", "xyz"); ("radius", "1.5")]) _ _)
           (S754_zero false) (NumError "ParseFloat" "abc" ErrSyntax) _);
    first [discriminate | reflexivity].
Defined.

(** X4, witness: the database is shutting down. *)
Lemma scan_failure_is_server_error_witness :
  let params := [("lat", "30.27"); ("lng", "-97.74")] in
  http.status (Sample.serve Scenario.failing params).1 = http.StatusInternalServerError /\
  http.body (Sample.serve Scenario.failing params).1 =
    error_body "error scanning row: pq: the database system is shutting down" /\
  (Sample.serve Scenario.failing params).2 =
    [(queryStr, [Float64 (Sample.decimal (-9774) 2); Float64 (Sample.decimal 3027 2);
                 Int64 10000])].
Proof.
  apply (scan_failure_is_server_error (H := Sample.sample_strconv) (H0 := Scenario.failing)
           (Sample.request [("lat", "30.27"); ("lng", "-97.74")])
           (Sample.decimal 3027 2) (Sample.decimal (-9774) 2) 10000
           (errorString "pq: the database system is shutting down")).
  - repeat split; discriminate.
  - reflexivity.
  - reflexivity.
Defined.

(** X5, witness: a second latitude, radius=10000 and a parameter the
    handler does not know, against the plain request. *)
Lemma response_depends_on_three_strings_witness :
  respond (H0 := Sample.answers (inl "[]"))
    (Scenario.request [("lat", ["30.27"; "1"]); ("lng", ["-97.74"]);
                       ("radius", ["10000"]); ("units", ["km"])])
  = respond (H0 := Sample.answers (inl "[]"))
      (Sample.request [("lat", "30.27"); ("lng", "-97.74")]).
Proof.
  apply (response_depends_on_three_strings (H := Sample.sample_strconv)
           (H0 := Sample.answers (inl "[]"))); reflexivity.
Defined.

(** X7, witness: a rate of 100%% in the data. *)
Lemma doubled_percent_in_payload_is_halved_witness :
  let db := Sample.answers (inl (raw "[{'rate': '100%%'}]")) in
  http.status (Sample.serve db [("lat", "30.27"); ("lng", "-97.74")]).1 = http.StatusOK /\
  http.body (Sample.serve db [("lat", "30.27"); ("lng", "-97.74")]).1 =
    ok_body (raw "[{'rate': '100%'}]").
Proof.
  apply (doubled_percent_in_payload_is_halved (H := Sample.sample_strconv)
           (H0 := Sample.answers (inl (raw "[{'rate': '100%%'}]")))
           (Sample.request [("lat", "30.27"); ("lng", "-97.74")])
           (Sample.decimal 3027 2) (Sample.decimal (-9774) 2) 10000
           (raw "[{'rate': '100") (raw "'}]")).
  - repeat split; discriminate.
  - reflexivity.
  - reflexivity.
  - reflexivity.
Defined.

(** X10, witness: three of four points of the line lie within 100 of the
    centre. *)
Lemma all_matches_returned_up_to_the_cap_witness :
  select_row (H := Sample.line_world) [("a", 50); ("far", 2000); ("b", 10); ("c", -30)]
    (S754_zero false) (S754_zero false) 100
  ≡ₚ map (fun r => (r, distance_km (H := Sample.line_world)
                         (S754_zero false) (S754_zero false) r))
       [("a", 50); ("b", 10); ("c", -30)].
Proof.
  apply (all_matches_returned_up_to_the_cap (H := Sample.line_world)
           [("a", 50); ("far", 2000); ("b", 10); ("c", -30)]
           (S754_zero false) (S754_zero false) 100).
  vm_compute. lia.
Defined.

(** X11, witness: the far point taken out of the table. *)
Lemma rows_outside_the_radius_do_not_matter_witness :
  select_features (H := Sample.line_world) [("a", 50); ("far", 2000); ("b", 10)]
    (S754_zero false) (S754_zero false) 100
  = select_features (H := Sample.line_world) [("a", 50); ("b", 10)]
      (S754_zero false) (S754_zero false) 100.
Proof.
  apply (rows_outside_the_radius_do_not_matter (H := Sample.line_world)
           [("a", 50)] [("far", 2000)] [("b", 10)]).
  repeat constructor.
Defined.

(** X13, witness: PORT=9000 and a database that answers. *)
Lemma listener_starts_once_after_both_routes_witness :
  exists pre,
    main (H1 := Sample.reachable) (H0 := Sample.answers (inl "[]"))
      = pre ++ [ListenAndServe ":9000"] /\
    In Ping pre /\
    In (Handle "/" (FileServer "static")) pre /\
    In (Handle "/api/search" (HandlerFunc (apiSearchHandler (H0 := Sample.answers (inl "[]"))))) pre.
Proof.
  exists (removelast (main (H1 := Sample.reachable) (H0 := Sample.answers (inl "[]")))).
  split; [reflexivity|].
  pose proof (listener_starts_once_after_both_routes (H1 := Sample.reachable)
                (H0 := Sample.answers (inl "[]"))
                (removelast (main (H1 := Sample.reachable) (H0 := Sample.answers (inl "[]"))))
                [] ":9000" eq_refl)
    as (_ & Hping & Hroot & Hsearch & _).
  exact (conj Hping (conj Hroot Hsearch)).
Defined.
